(** * gogsmmodem: the AT formatter, the packet parser, the SMS codecs and the
      protocol engine, embedded from util.go and modem.go.

    Go strings are byte strings: they are modelled by [string] (one [ascii]
    per byte).  The two codecs walk a string rune by rune, so there a string
    is modelled by the list of its runes.  A Go [int] is a 64-bit integer,
    modelled by [Z] with its range written out where the code depends on it.
    A run-time panic is an explicit outcome, [Panic]. *)

From Stdlib Require Import String Ascii List ZArith Lia Bool Arith.
From Stdlib Require Import DecimalString DecimalZ DecimalPos.
Import ListNotations.
Open Scope string_scope.

(** ** Outcomes of Go code that may panic *)

Inductive panic : Type :=
| IndexOutOfRange          (* a[i] with i >= len(a) *)
| SliceOutOfRange          (* s[:n] with n < 0 or n > len(s) *)
| BadTypeAssertion         (* x.(T) on a value of another type *)
| PanicMsg (msg : string). (* panic(msg) *)

Inductive result (A : Type) : Type :=
| Done (a : A)
| Panic (p : panic).
Arguments Done {A} a.
Arguments Panic {A} p.

Definition bind {A B : Type} (r : result A) (k : A -> result B) : result B :=
  match r with
  | Done a => k a
  | Panic p => Panic p
  end.

Notation "x <- r ;; k" := (bind r (fun x => k))
  (at level 61, r at next level, right associativity).
Notation "' p <- r ;; k" := (bind r (fun x => match x with p => k end))
  (at level 61, p pattern, r at next level, right associativity).

Definition panics {A : Type} (r : result A) : bool :=
  match r with Done _ => false | Panic _ => true end.

(** ** Bytes and the quote character *)

Definition dquote : ascii := ascii_of_nat 34.
Definition qq : string := String dquote EmptyString.
Definition CRLF : string := String (ascii_of_nat 13) (String (ascii_of_nat 10) EmptyString).

Definition code (c : ascii) : nat := nat_of_ascii c.

(** ** The functions of Go's package [strings] that the program calls *)

Module strings.

Fixpoint HasPrefix (s p : string) {struct p} : bool :=
  match p, s with
  | EmptyString, _ => true
  | String a p', String b s' => Ascii.eqb a b && HasPrefix s' p'
  | String _ _, EmptyString => false
  end.

Fixpoint drop (n : nat) (s : string) : string :=
  match n, s with
  | O, _ => s
  | S n', String _ s' => drop n' s'
  | S _, EmptyString => EmptyString
  end.

Definition HasSuffix (s p : string) : bool :=
  (String.length p <=? String.length s)%nat &&
  String.eqb (drop (String.length s - String.length p) s) p.

(** [Index s sep]: the byte offset of the first [sep] in [s]; Go's -1 is
    [None]. *)
Fixpoint Index (s sep : string) : option nat :=
  if HasPrefix s sep then Some O
  else match s with
       | EmptyString => None
       | String _ s' => option_map S (Index s' sep)
       end.

Definition Contains (s sub : string) : bool :=
  match Index s sub with Some _ => true | None => false end.

(** [cut s sep]: the text before and after the first [sep] of [s]. *)
Fixpoint cut (s sep : string) : option (string * string) :=
  if HasPrefix s sep then Some (EmptyString, drop (String.length sep) s)
  else match s with
       | EmptyString => None
       | String c s' =>
           match cut s' sep with
           | Some (a, b) => Some (String c a, b)
           | None => None
           end
       end.

(** [SplitN s sep n] for n >= 0 and a non-empty [sep] (the separators of
    the program are ":" and "),("): at most [n] pieces, the last one the
    unsplit rest. *)
Fixpoint SplitN (s sep : string) (n : nat) : list string :=
  match n with
  | O => []
  | S O => [s]
  | S n' =>
      match cut s sep with
      | Some (a, b) => a :: SplitN b sep n'
      | None => [s]
      end
  end.

Definition TrimPrefix (s p : string) : string :=
  if HasPrefix s p then drop (String.length p) s else s.

Definition TrimSuffix (s p : string) : string :=
  if HasSuffix s p then substring 0 (String.length s - String.length p) s else s.

Definition in_cutset (cutset : string) (c : ascii) : bool :=
  existsb (Ascii.eqb c) (list_ascii_of_string cutset).

Fixpoint TrimLeft (s cutset : string) : string :=
  match s with
  | EmptyString => EmptyString
  | String c s' => if in_cutset cutset c then TrimLeft s' cutset else s
  end.

Fixpoint TrimRight (s cutset : string) : string :=
  match s with
  | EmptyString => EmptyString
  | String c s' =>
      match TrimRight s' cutset with
      | EmptyString => if in_cutset cutset c then EmptyString
                       else String c EmptyString
      | r => String c r
      end
  end.

(** An ASCII cut set is trimmed byte by byte. *)
Definition Trim (s cutset : string) : string :=
  TrimRight (TrimLeft s cutset) cutset.

(** White space for [TrimSpace] is [unicode.IsSpace]: the six ASCII
    characters, U+0085 and U+00A0, and U+1680, U+2000..U+200A, U+2028,
    U+2029, U+202F, U+205F, U+3000, here in their UTF-8 encodings. *)
Definition isSpace1 (a : ascii) : bool :=
  ((9 <=? code a) && (code a <=? 13) || (code a =? 32))%nat.

Definition isSpace2 (a b : ascii) : bool :=
  ((code a =? 194) && ((code b =? 133) || (code b =? 160)))%nat.

Definition isSpace3 (a b c : ascii) : bool :=
  ((code a =? 225) && (code b =? 154) && (code c =? 128)
   || (code a =? 226) && (code b =? 128) &&
      ((128 <=? code c) && (code c <=? 138)
       || (code c =? 168) || (code c =? 169) || (code c =? 175))
   || (code a =? 226) && (code b =? 129) && (code c =? 159)
   || (code a =? 227) && (code b =? 128) && (code c =? 128))%nat.

Fixpoint trimLeftSpace (s : string) : string :=
  match s with
  | String a s1 =>
      if isSpace1 a then trimLeftSpace s1
      else match s1 with
           | String b s2 =>
               if isSpace2 a b then trimLeftSpace s2
               else match s2 with
                    | String c s3 =>
                        if isSpace3 a b c then trimLeftSpace s3 else s
                    | EmptyString => s
                    end
           | EmptyString => s
           end
  | EmptyString => s
  end.

(** [isSpaceRune t]: [t] is the encoding of exactly one white-space rune. *)
Definition isSpaceRune (t : string) : bool :=
  match t with
  | String a EmptyString => isSpace1 a
  | String a (String b EmptyString) => isSpace2 a b
  | String a (String b (String c EmptyString)) => isSpace3 a b c
  | _ => false
  end.

Fixpoint trimRightSpace (s : string) : string :=
  match s with
  | EmptyString => EmptyString
  | String c s' =>
      let r := String c (trimRightSpace s') in
      if isSpaceRune r then EmptyString else r
  end.

Definition TrimSpace (s : string) : string :=
  trimRightSpace (trimLeftSpace s).

Fixpoint Join (l : list string) (sep : string) : string :=
  match l with
  | [] => EmptyString
  | [x] => x
  | x :: l' => x ++ sep ++ Join l' sep
  end.

End strings.

(** ** strconv.Itoa and strconv.Atoi, on 64-bit ints *)

Module strconv.

Definition minInt : Z := - 2 ^ 63.
Definition maxInt : Z := 2 ^ 63 - 1.

Definition is_int (n : Z) : Prop := (minInt <= n <= maxInt)%Z.

Definition in_range (n : Z) : bool := ((minInt <=? n) && (n <=? maxInt))%Z.

(** Decimal rendering: a minus sign for negative numbers, no leading zero. *)
Definition Itoa (n : Z) : string := NilEmpty.string_of_int (Z.to_int n).

(** The digits of [s] read as a number; [None] when [s] is empty or holds
    anything but decimal digits. *)
Definition digits (s : string) : option Z :=
  match s with
  | EmptyString => None
  | _ => option_map Z.of_uint (NilEmpty.uint_of_string s)
  end.

(** [Atoi s]: an optional sign, then one or more decimal digits, and the
    value must fit an int; every other string is an error ([None]). *)
Definition Atoi (s : string) : option Z :=
  let signed (neg : bool) (ds : string) :=
    match digits ds with
    | Some v => let n := if neg then (- v)%Z else v in
                if in_range n then Some n else None
    | None => None
    end in
  match s with
  | String c s' =>
      if Ascii.eqb c "-" then signed true s'
      else if Ascii.eqb c "+" then signed false s'
      else signed false s
  | EmptyString => None
  end.

End strconv.

(** ** Values of type interface{} *)

(** The arguments of a command are of Go's type interface{}.  The program
    tells strings, ints and int64s apart; a value of any other dynamic type is
    [VOther T], with [T] the name that the verb %T prints for it. *)
Inductive value : Type :=
| VString (s : string)
| VInt (n : Z)
| VInt64 (n : Z)
| VOther (T : string).

Definition value_eqb (a b : value) : bool :=
  match a, b with
  | VString s, VString t => String.eqb s t
  | VInt n, VInt m => Z.eqb n m
  | VInt64 n, VInt64 m => Z.eqb n m
  | VOther s, VOther t => String.eqb s t
  | _, _ => false
  end.

(** fmt.Sprint of a string or an integer; the program applies it to the
    results of unquote only, which are strings and ints. *)
Definition Sprint (v : value) : string :=
  match v with
  | VString s => s
  | VInt n | VInt64 n => strconv.Itoa n
  | VOther T => T
  end.

(** ** util.go: quoting *)

Definition quote (s : value) : result string :=
  match s with
  | VString v =>
      if String.eqb v "?" then Done v
      else Done (qq ++ v ++ qq)
  | VInt v | VInt64 v => Done (strconv.Itoa v)
  | VOther T => Panic (PanicMsg ("Unsupported argument type: " ++ T))
  end.

Fixpoint quote_all (args : list value) : result (list string) :=
  match args with
  | [] => Done []
  | arg :: rest =>
      q <- quote arg ;;
      qs <- quote_all rest ;;
      Done (q :: qs)
  end.

Definition quotes (args : list value) : result string :=
  ret <- quote_all args ;;
  Done (strings.Join ret ",").

Definition startsWith (s p : string) : bool :=
  match strings.Index s p with
  | Some O => true
  | _ => false
  end.

Definition unquote (s : string) : value :=
  if startsWith s qq then VString (strings.Trim s qq)
  else match strconv.Atoi s with
       | Some i => VInt i
       | None => VString s
       end.

(** ** The two regular expressions of the program

    Go's regexp is leftmost-first: at a position the first alternative that
    matches wins, and a star takes as much as it can. *)

Module regexp.

Fixpoint span (p : ascii -> bool) (s : string) : string * string :=
  match s with
  | String c s' =>
      if p c then let (a, r) := span p s' in (String c a, r)
      else (EmptyString, s)
  | EmptyString => (EmptyString, EmptyString)
  end.

Definition notquote (c : ascii) : bool := negb (Ascii.eqb c dquote).
Definition notcomma (c : ascii) : bool := negb (Ascii.eqb c ",").

(** RegexQuote, a quoted run or else a run without comma, matched at the
    start of [s]: the match and the text after it.  The second alternative
    matches everywhere, so a search from a position matches at it. *)
Definition RegexQuote_at (s : string) : string * string :=
  match s with
  | String c t =>
      if Ascii.eqb c dquote then
        match span notquote t with
        | (a, String _ r) => (String dquote (a ++ qq), r)
        | (_, EmptyString) => span notcomma s
        end
      else span notcomma s
  | EmptyString => (EmptyString, EmptyString)
  end.

(** The loop of FindAllString: [abut] says that the previous match ended at
    the current position; an empty match there is dropped, and after an
    empty match the search moves one character on (or stops at the end). *)
Fixpoint allMatches (fuel : nat) (s : string) (abut : bool) : list string :=
  match fuel with
  | O => []
  | S fuel' =>
      let (m, r) := RegexQuote_at s in
      match m with
      | EmptyString =>
          let found := if abut then [] else [EmptyString] in
          match s with
          | EmptyString => found
          | String _ s' => (found ++ allMatches fuel' s' false)%list
          end
      | String _ _ => m :: allMatches fuel' r true
      end
  end.

Definition RegexQuote_FindAllString (s : string) : list string :=
  allMatches (S (String.length s)) s false.

Definition isUpper (c : ascii) : bool :=
  ((65 <=? code c) && (code c <=? 90))%nat.

(** reQuestion is AT(\+[A-Z]+); the function gives the group m[1] of the
    leftmost match, [None] when FindStringSubmatch finds none. *)
Fixpoint reQuestion_group (s : string) : option string :=
  match s with
  | EmptyString => None
  | String _ s' =>
      if strings.HasPrefix s "AT+" then
        match span isUpper (strings.drop 3 s) with
        | (EmptyString, _) => reQuestion_group s'
        | (a, _) => Some (String "+" a)
        end
      else reQuestion_group s'
  end.

End regexp.

Definition unquotes (s : string) : list value :=
  map unquote (regexp.RegexQuote_FindAllString s).

Definition stringsUnquotes (s : string) : list string :=
  map Sprint (unquotes s).

(** ** time.Parse for the layout of the program *)

Module time.

(** A time in UTC, by its fields. *)
Record Time : Type := mkTime {
  year : Z; month : Z; day : Z;
  hour : Z; minute : Z; second : Z; nsec : Z
}.

(** Time{}: January 1 of year 1, 00:00:00 UTC. *)
Definition zero : Time := mkTime 1 1 1 0 0 0 0.

Definition isDigit (c : ascii) : bool :=
  ((48 <=? code c) && (code c <=? 57))%nat.

Local Open Scope Z_scope.

Definition digit (c : ascii) : Z := Z.of_nat (code c) - 48.

(** getnum: one or two digits, exactly two when [fixed]. *)
Definition getnum (s : string) (fixed : bool) : option (Z * string) :=
  match s with
  | String a s1 =>
      if isDigit a then
        match s1 with
        | String b s2 =>
            if isDigit b then Some (digit a * 10 + digit b, s2)
            else if fixed then None else Some (digit a, s1)
        | EmptyString => if fixed then None else Some (digit a, s1)
        end
      else None
  | EmptyString => None
  end.

(** The two characters of a year go through atoi, which takes a sign. *)
Definition getyear (s : string) : option (Z * string) :=
  match s with
  | String a (String b rest) =>
      let yy :=
        if isDigit a && isDigit b then Some (digit a * 10 + digit b)
        else if Ascii.eqb a "+" && isDigit b then Some (digit b)
        else if Ascii.eqb a "-" && isDigit b then Some (- digit b)
        else None in
      match yy with
      | Some y => Some (if y >=? 69 then y + 1900 else y + 2000, rest)
      | None => None
      end
  | _ => None
  end.

(** skip for a prefix of one character other than a space. *)
Definition skip (s : string) (c : ascii) : option string :=
  match s with
  | String a rest => if Ascii.eqb a c then Some rest else None
  | EmptyString => None
  end.

Definition isLeap (y : Z) : bool :=
  (y mod 4 =? 0) && (negb (y mod 100 =? 0) || (y mod 400 =? 0)).

Definition daysIn (m y : Z) : Z :=
  if m =? 2 then (if isLeap y then 29 else 28)
  else if (m =? 4) || (m =? 6) || (m =? 9) || (m =? 11) then 30
  else 31.

Definition commaOrPeriod (c : ascii) : bool :=
  Ascii.eqb c "." || Ascii.eqb c ",".

Fixpoint digitsValue (acc : Z) (s : string) : Z :=
  match s with
  | String c s' => digitsValue (acc * 10 + digit c) s'
  | EmptyString => acc
  end.

(** A fraction of a second after the seconds is read although the layout
    has none: a period or comma and digits, of which nine count. *)
Definition fraction (s : string) : Z * string :=
  match s with
  | String c (String d _ as t) =>
      if commaOrPeriod c && isDigit d then
        let (ds, rest) := regexp.span isDigit t in
        let used := substring 0 9 ds in
        (digitsValue 0 used * 10 ^ (9 - Z.of_nat (String.length used)), rest)
      else (0, s)
  | _ => (0, s)
  end.

Definition opt_bind {A B : Type} (o : option A) (k : A -> option B) : option B :=
  match o with Some a => k a | None => None end.

(** time.Parse(TimeFormat, value) with TimeFormat = 06/01/02,15:04:05;
    [None] is a parse error, for which Go returns Time{} with the error. *)
Definition ParseTimeFormat (value : string) : option Time :=
  opt_bind (getyear value) (fun '(y, v) =>
  opt_bind (skip v "/") (fun v =>
  opt_bind (getnum v true) (fun '(mo, v) =>
  if (mo <=? 0) || (12 <? mo) then None else
  opt_bind (skip v "/") (fun v =>
  opt_bind (getnum v true) (fun '(d, v) =>
  opt_bind (skip v ",") (fun v =>
  opt_bind (getnum v false) (fun '(h, v) =>
  if 24 <=? h then None else
  opt_bind (skip v ":") (fun v =>
  opt_bind (getnum v true) (fun '(mi, v) =>
  if 60 <=? mi then None else
  opt_bind (skip v ":") (fun v =>
  opt_bind (getnum v true) (fun '(s, v) =>
  if 60 <=? s then None else
  let (ns, v) := fraction v in
  match v with
  | String _ _ => None
  | EmptyString =>
      if (d <? 1) || (daysIn mo y <? d) then None
      else Some (mkTime y mo d h mi s ns)
  end))))))))))).

End time.

(** Parse an AT formatted time: the last three characters (the zone) are
    cut off, and the error of time.Parse is dropped. *)
Definition parseTime (t : string) : result time.Time :=
  if (String.length t <? 3)%nat then Panic SliceOutOfRange
  else
    let t := substring 0 (String.length t - 3) t in
    match time.ParseTimeFormat t with
    | Some ret => Done ret
    | None => Done time.zero
    end.

(** ** Packets *)

(** Modelled from the spec: the packet types, whose declarations
    (packets.go) are not among the sources.  The fields are those that
    modem.go reads and writes, with the types it asserts. *)
Record Message : Type := mkMessage {
  Index : Z;
  Status : string;
  Telephone : string;
  Timestamp : time.Time;
  Body : string;
  Last : bool
}.

(** Modelled from the spec: the closed set of packets of section 3. *)
Inductive Packet : Type :=
| OK
| ERROR
| MessagePacket (m : Message)
| MessageNotification (storage : string) (index : Z)
| ServiceStatus (status : string)
| NetworkStatus (status : string)
| SMSCAddress (args : list value)
| StorageAreas (read write new : list string)
| StorageInfo (usedRead totalRead usedWrite totalWrite usedNew totalNew : Z)
| UnknownPacket (command : string) (arguments : list value).

(** Message{}: every field at its zero value. *)
Definition Message0 : Message :=
  mkMessage 0 EmptyString EmptyString time.zero EmptyString false.

(** ** modem.go: the packet parser *)

Definition isFinalStatus (status : string) : bool :=
  String.eqb status "OK"
  || String.eqb status "ERROR"
  || strings.Contains status "+CMS ERROR"
  || strings.Contains status "+CME ERROR".

(** a[i] *)
Definition at_index {A : Type} (a : list A) (i : nat) : result A :=
  match nth_error a i with
  | Some x => Done x
  | None => Panic IndexOutOfRange
  end.

(** x.(string) and x.(int) *)
Definition asString (x : value) : result string :=
  match x with
  | VString s => Done s
  | _ => Panic BadTypeAssertion
  end.

Definition asInt (x : value) : result Z :=
  match x with
  | VInt n => Done n
  | _ => Panic BadTypeAssertion
  end.

(** reflect.TypeOf(x).String() == "int" *)
Definition isInt (x : value) : bool :=
  match x with
  | VInt _ => true
  | _ => false
  end.

Fixpoint ints (args : list value) : list Z :=
  match args with
  | [] => []
  | VInt i :: rest => i :: ints rest
  | _ :: rest => ints rest
  end.

(** The result is [None] for Go's nil packet. *)
Definition parsePacket (status header body : string) : result (option Packet) :=
  if String.eqb header EmptyString && isFinalStatus status then
    if String.eqb status "OK" then Done (Some OK) else Done (Some ERROR)
  else
  match strings.SplitN header ":" 2 with
  | [name; rest] =>
      let uargs := strings.TrimSpace rest in
      let args := unquotes uargs in
      if String.eqb name "+ZUSIMR" then Done None
      else if String.eqb name "+ZPASR" then
        a0 <- at_index args 0 ;; s0 <- asString a0 ;;
        Done (Some (ServiceStatus s0))
      else if String.eqb name "+ZDONR" then
        a0 <- at_index args 0 ;; s0 <- asString a0 ;;
        Done (Some (NetworkStatus s0))
      else if String.eqb name "+CMTI" then
        a0 <- at_index args 0 ;; s0 <- asString a0 ;;
        a1 <- at_index args 1 ;; i1 <- asInt a1 ;;
        Done (Some (MessageNotification s0 i1))
      else if String.eqb name "+CSCA" then
        Done (Some (SMSCAddress args))
      else if String.eqb name "+CMGR" then
        a1 <- at_index args 1 ;;
        if value_eqb a1 (VString EmptyString) then
          Done (Some (MessagePacket
            (mkMessage 0 EmptyString EmptyString time.zero body false)))
        else
          a0 <- at_index args 0 ;; st <- asString a0 ;;
          a1 <- at_index args 1 ;; tel <- asString a1 ;;
          a3 <- at_index args 3 ;; ts <- asString a3 ;;
          t <- parseTime ts ;;
          Done (Some (MessagePacket (mkMessage 0 st tel t body false)))
      else if String.eqb name "+CMGL" then
        a2 <- at_index args 2 ;;
        if isInt a2 then
          a0 <- at_index args 0 ;; idx <- asInt a0 ;;
          a1 <- at_index args 1 ;; st <- asString a1 ;;
          a2 <- at_index args 2 ;; tel <- asInt a2 ;;
          Done (Some (MessagePacket
            (mkMessage idx st (strconv.Itoa tel) time.zero body
                       (negb (String.eqb status EmptyString)))))
        else
          a0 <- at_index args 0 ;; idx <- asInt a0 ;;
          a1 <- at_index args 1 ;; st <- asString a1 ;;
          a2 <- at_index args 2 ;; tel <- asString a2 ;;
          a4 <- at_index args 4 ;; ts <- asString a4 ;;
          t <- parseTime ts ;;
          Done (Some (MessagePacket
            (mkMessage idx st tel t body
                       (negb (String.eqb status EmptyString)))))
      else if String.eqb name "+CPMS" then
        let s := uargs in
        if strings.HasPrefix s "(" then
          let s := strings.TrimPrefix s "(" in
          let s := strings.TrimSuffix s ")" in
          let areas := strings.SplitN s "),(" 3 in
          r0 <- at_index areas 0 ;;
          r1 <- at_index areas 1 ;;
          r2 <- at_index areas 2 ;;
          Done (Some (StorageAreas (stringsUnquotes r0) (stringsUnquotes r1)
                                   (stringsUnquotes r2)))
        else
          match ints args with
          | [i0; i1; i2; i3; i4; i5] => Done (Some (StorageInfo i0 i1 i2 i3 i4 i5))
          | [i0; i1; i2; i3] => Done (Some (StorageInfo i0 i1 i2 i3 0 0))
          | _ => Done (Some (UnknownPacket name args))
          end
      else if String.eqb name EmptyString then
        if String.eqb status "OK" then Done (Some OK) else Done (Some ERROR)
      else Done (Some (UnknownPacket name args))
  | _ => Done (Some (UnknownPacket header []))
  end.

(** ** modem.go: the command formatter *)

Definition formatCommand (cmd : string) (args : list value) : result string :=
  let line := "AT" ++ cmd in
  line <- match args with
          | [] => Done line
          | _ :: _ => q <- quotes args ;; Done (line ++ "=" ++ q)
          end ;;
  Done (line ++ CRLF).

(** ** modem.go: the protocol engine (listen)

    The engine is one goroutine that waits for a line from the port or a
    command from a caller and handles one of them per iteration.  Its four
    local variables are the state; what an iteration does to the channels,
    the port and the log is the list of its actions, in order. *)

Record engine : Type := mkEngine {
  echo : string;
  last : string;
  header : string;
  body : string
}.

Inductive event : Type :=
| LineIn (line : string)      (* case line := <-in *)
| Transmit (line : string).   (* case line := <-self.tx *)

Inductive action : Type :=
| ToRx (packet : option Packet)          (* self.rx <- packet *)
| ToOOB (packet : Packet)                (* self.OOB <- p *)
| PortWrite (bytes : string)             (* self.port.Write *)
| Log (text : string)                    (* log.Println of strings *)
| LogPacket (text : string) (p : Packet). (* log.Println(text, p) *)

Definition nonempty (s : string) : bool := negb (String.eqb s EmptyString).

Definition listen_step (st : engine) (ev : event) : result (engine * list action) :=
  match ev with
  | LineIn line =>
      let entry := Log "case line := <-in" in
      if String.eqb line (echo st) then
        Done (st, [entry])
      else if nonempty (last st) && startsWith line (last st) then
        if nonempty (header st) then
          packet <- parsePacket EmptyString (header st) (body st) ;;
          Done (mkEngine (echo st) (last st) line EmptyString,
                [entry; ToRx packet])
        else
          Done (mkEngine (echo st) (last st) line EmptyString, [entry])
      else if isFinalStatus line then
        packet <- parsePacket line (header st) (body st) ;;
        Done (mkEngine (echo st) (last st) EmptyString EmptyString,
              [entry; ToRx packet])
      else if nonempty (header st) then
        Done (mkEngine (echo st) (last st) (header st) (body st ++ line),
              [entry])
      else if String.eqb line "> " then
        Done (st, [entry])
      else
        let logs := [entry; Log "OOB packet"; Log ("line " ++ line);
                     Log ("header " ++ header st)] in
        p <- parsePacket "OK" line EmptyString ;;
        match p with
        | Some p' =>
            (* the send on self.OOB is commented out in the source *)
            Done (st, (logs ++ [LogPacket "self.OOB <- p" p'])%list)
        | None => Done (st, logs)
        end
  | Transmit line =>
      let last' := match regexp.reQuestion_group line with
                   | Some m1 => m1
                   | None => last st
                   end in
      Done (mkEngine (strings.TrimRight line CRLF) last' (header st) (body st),
            [Log "**listen**"; PortWrite line])
  end.

Fixpoint listen (st : engine) (evs : list event) : result (engine * list action) :=
  match evs with
  | [] => Done (st, [])
  | ev :: rest =>
      '(st1, acts1) <- listen_step st ev ;;
      '(st2, acts2) <- listen st1 rest ;;
      Done (st2, (acts1 ++ acts2)%list)
  end.

(** The packets that a run hands to the two channels, in order. *)
Fixpoint rx_of (acts : list action) : list (option Packet) :=
  match acts with
  | [] => []
  | ToRx p :: rest => p :: rx_of rest
  | _ :: rest => rx_of rest
  end.

Fixpoint oob_of (acts : list action) : list Packet :=
  match acts with
  | [] => []
  | ToOOB p :: rest => p :: oob_of rest
  | _ :: rest => oob_of rest
  end.

(** ** modem.go: the callers' side

    A caller hands its command to the engine and then receives from rx, which
    is unbuffered: its k-th receive takes the k-th packet that the engine
    sends.  A call is therefore a function of the packets that the engine
    sends on rx while it runs; when they run out the call waits. *)

Inductive reply (A : Type) : Type :=
| Returns (a : A)
| Fails (err : string)
| Waits.
Arguments Returns {A} a.
Arguments Fails {A} err.
Arguments Waits {A}.

(** The loop of ListMessages, from the packet in hand. *)
Fixpoint collect (packet : option Packet) (rx : list (option Packet))
         (res : list Message) : reply (list Message) :=
  match packet with
  | Some (MessagePacket msg) =>
      let res := (res ++ [msg])%list in
      if Last msg then Returns res
      else match rx with
           | [] => Waits
           | next :: rx' => collect next rx' res
           end
  | _ => Fails "Unexpected error"
  end.

(** ListMessages on the packets received: send first, then the loop. *)
Definition ListMessages_rx (rx : list (option Packet)) : reply (list Message) :=
  match rx with
  | [] => Waits
  | Some ERROR :: _ => Fails "Response was ERROR"
  | Some OK :: _ => Returns []
  | packet :: rx' => collect packet rx' []
  end.

(** ListMessages(filter) against an engine in state [st] while the port
    delivers [lines]. *)
Definition ListMessages (st : engine) (filter : string) (lines : list string)
  : result (reply (list Message)) :=
  cmd <- formatCommand "+CMGL" [VString filter] ;;
  '(_, acts) <- listen st (Transmit cmd :: map LineIn lines) ;;
  Done (ListMessages_rx (rx_of acts)).

(** ** util.go: the SMS codecs

    The codecs range over a string rune by rune and look every rune up in a
    map.  Here a string is the list of its runes (code points, in [Z]), a map
    literal is the list of its entries, whose keys are distinct, and m[c] is
    [lookup c m].  The strings of the tables are ASCII, one rune per byte. *)

Definition rune : Type := Z.

Fixpoint lookup {V : Type} (c : rune) (m : list (rune * V)) : option V :=
  match m with
  | [] => None
  | (k, v) :: m' => if Z.eqb c k then Some v else lookup c m'
  end.

Definition hexdigit (upper : bool) (d : Z) : ascii :=
  if (d <? 10)%Z then ascii_of_nat (48 + Z.to_nat d)
  else ascii_of_nat ((if upper then 55 else 87) + Z.to_nat d).

(** Four hexadecimal digits of a 16-bit value, the most significant first. *)
Definition hex4 (upper : bool) (v : Z) : string :=
  String (hexdigit upper ((v / 4096) mod 16))
    (String (hexdigit upper ((v / 256) mod 16))
       (String (hexdigit upper ((v / 16) mod 16))
          (String (hexdigit upper (v mod 16)) EmptyString))).

(** The first util.go: characters that the table lacks pass through, and the
    16-bit encoding is computed with unicode/utf16. *)
Module Util1.

Definition gsm0338Encode : list (rune * list rune) := [
  (64, [0]); (163, [1]); (36, [2]); (165, [3]); (232, [4]); (233, [5]);
  (249, [6]); (236, [7]); (242, [8]); (199, [9]); (13, [10]); (216, [11]);
  (248, [12]); (10, [13]); (197, [14]); (229, [15]); (916, [16]);
  (95, [17]); (934, [18]); (915, [19]); (923, [20]); (937, [21]);
  (928, [22]); (936, [23]); (931, [24]); (920, [25]); (926, [26]);
  (198, [28]); (230, [29]); (201, [31]); (164, [36]); (37, [37]);
  (161, [64]); (196, [91]); (214, [92]); (209, [93]); (220, [94]);
  (167, [95]); (228, [123]); (246, [124]); (241, [125]); (252, [126]);
  (224, [127]); (8364, [27; 101]); (91, [27; 60]); (92, [27; 47]);
  (93, [27; 62]); (94, [27; 94]); (123, [27; 40]); (124, [27; 64]);
  (125, [27; 41]); (126, [27; 61])
]%Z.

Definition gsm0338Decode : list (rune * rune) := [
  (0, 64); (1, 163); (2, 36); (3, 165); (4, 232); (5, 233); (6, 249);
  (7, 236); (8, 242); (9, 199); (10, 13); (11, 216); (12, 248); (13, 10);
  (14, 197); (15, 229); (16, 916); (17, 95); (18, 934); (19, 915);
  (20, 923); (21, 937); (22, 928); (23, 936); (24, 931); (25, 920);
  (26, 926); (28, 198); (29, 230); (31, 201); (36, 164); (37, 37);
  (64, 161); (91, 196); (92, 214); (93, 209); (94, 220); (95, 167);
  (123, 228); (124, 246); (125, 241); (126, 252); (127, 224)
]%Z.

Definition gsmEncode (s : list rune) : list rune :=
  flat_map (fun c => match lookup c gsm0338Encode with
                     | Some d => d
                     | None => [c]
                     end) s.

Definition gsmDecode (s : list rune) : list rune :=
  flat_map (fun c => match lookup c gsm0338Decode with
                     | Some d => [d]
                     | None => [c]
                     end) s.

Definition Decode (s : list rune) : list rune := gsmDecode s.

(** utf16.Encode: one unit for a rune of the basic plane, a surrogate
    pair above it, U+FFFD for a surrogate or a value that is no rune. *)
Definition utf16_Encode (s : list rune) : list Z :=
  flat_map (fun v =>
    if ((0 <=? v) && (v <? 55296) || (57344 <=? v) && (v <? 65536))%Z then [v]
    else if ((65536 <=? v) && (v <=? 1114111))%Z then
      let r := (v - 65536)%Z in
      [(55296 + (r / 1024) mod 1024)%Z; (56320 + r mod 1024)%Z]
    else [65533%Z]) s.

(** Sprintf of a slice of uint16 with the verb %04x: the elements in
    lower-case hexadecimal, a space between them, in square brackets. *)
Definition Sprintf_04x (a : list Z) : string :=
  "[" ++ strings.Join (map (hex4 false) a) " " ++ "]".

Fixpoint removeSpaces (s : string) : string :=
  match s with
  | EmptyString => EmptyString
  | String c s' => if Ascii.eqb c " " then removeSpaces s'
                   else String c (removeSpaces s')
  end.

Definition unicodeEncode (s : list rune) : string :=
  let hex := Sprintf_04x (utf16_Encode s) in
  removeSpaces (substring 1 (String.length hex - 2) hex).

End Util1.

(** The second util.go: both encodings are tables, and a character that the
    table lacks is dropped. *)
Module Util2.

Definition gsm0338 : list (rune * list rune) := [
  (64, [0]); (163, [1]); (36, [2]); (165, [3]); (232, [4]); (233, [5]);
  (249, [6]); (236, [7]); (242, [8]); (199, [9]); (13, [10]); (216, [11]);
  (248, [12]); (10, [13]); (197, [14]); (229, [15]); (916, [16]);
  (95, [17]); (934, [18]); (915, [19]); (923, [20]); (937, [21]);
  (928, [22]); (936, [23]); (931, [24]); (920, [25]); (926, [26]);
  (198, [28]); (230, [29]); (201, [31]); (32, [32]); (33, [33]);
  (34, [34]); (35, [35]); (164, [36]); (37, [37]); (38, [38]); (39, [39]);
  (40, [40]); (41, [41]); (42, [42]); (43, [43]); (44, [44]); (45, [45]);
  (46, [46]); (47, [47]); (48, [48]); (49, [49]); (50, [50]); (51, [51]);
  (52, [52]); (53, [53]); (54, [54]); (55, [55]); (56, [56]); (57, [57]);
  (58, [58]); (59, [59]); (60, [60]); (61, [61]); (62, [62]); (63, [63]);
  (161, [64]); (65, [65]); (66, [66]); (67, [67]); (68, [68]); (69, [69]);
  (70, [70]); (71, [71]); (72, [72]); (73, [73]); (74, [74]); (75, [75]);
  (76, [76]); (77, [77]); (78, [78]); (79, [79]); (80, [80]); (81, [81]);
  (82, [82]); (83, [83]); (84, [84]); (85, [85]); (86, [86]); (87, [87]);
  (88, [88]); (89, [89]); (90, [90]); (196, [91]); (214, [92]);
  (209, [93]); (220, [94]); (167, [95]); (97, [97]); (98, [98]);
  (99, [99]); (100, [100]); (101, [101]); (102, [102]); (103, [103]);
  (104, [104]); (105, [105]); (106, [106]); (107, [107]); (108, [108]);
  (109, [109]); (110, [110]); (111, [111]); (112, [112]); (113, [113]);
  (114, [114]); (115, [115]); (116, [116]); (117, [117]); (118, [118]);
  (119, [119]); (120, [120]); (121, [121]); (122, [122]); (228, [123]);
  (246, [124]); (241, [125]); (252, [126]); (224, [127]);
  (8364, [27; 101]); (91, [27; 60]); (92, [27; 47]); (93, [27; 62]);
  (94, [27; 94]); (123, [27; 40]); (124, [27; 64]); (125, [27; 41]);
  (126, [27; 61])
]%Z.

Definition unicode : list (rune * string) := [
  (64, "0040"); (36, "0024"); (165, "00A5"); (13, "000A"); (10, "000D");
  (95, "005F"); (32, "0020"); (33, "0021"); (34, "0022"); (35, "0023");
  (37, "0025"); (38, "0026"); (39, "0027"); (40, "0028"); (41, "0029");
  (42, "002A"); (43, "002B"); (44, "002C"); (45, "002D"); (46, "002E");
  (47, "002F"); (48, "0030"); (49, "0031"); (50, "0032"); (51, "0033");
  (52, "0034"); (53, "0035"); (54, "0036"); (55, "0037"); (56, "0038");
  (57, "0039"); (58, "003A"); (59, "003B"); (60, "003C"); (61, "003D");
  (62, "003E"); (63, "003F"); (65, "0041"); (66, "0042"); (67, "0043");
  (68, "0044"); (69, "0045"); (70, "0046"); (71, "0047"); (72, "0048");
  (73, "0049"); (74, "004A"); (75, "004B"); (76, "004C"); (77, "004D");
  (78, "004E"); (79, "004F"); (80, "0050"); (81, "0051"); (82, "0052");
  (83, "0053"); (84, "0054"); (85, "0055"); (86, "0056"); (87, "0057");
  (88, "0058"); (89, "0059"); (90, "005A"); (97, "0061"); (98, "0062");
  (99, "0063"); (100, "0064"); (101, "0065"); (102, "0066"); (103, "0067");
  (104, "0068"); (105, "0069"); (106, "006A"); (107, "006B");
  (108, "006C"); (109, "006D"); (110, "006E"); (111, "006F");
  (112, "0070"); (113, "0071"); (114, "0072"); (115, "0073");
  (116, "0074"); (117, "0075"); (118, "0076"); (119, "0077");
  (120, "0078"); (121, "0079"); (122, "007A"); (91, "005B"); (92, "005C");
  (93, "005D"); (123, "007B"); (124, "007C"); (125, "007D"); (126, "007E");
  (1575, "0627"); (1570, "0622"); (1576, "0628"); (1662, "067E");
  (1578, "062A"); (1579, "062B"); (1580, "062C"); (1670, "0686");
  (1581, "062D"); (1582, "062E"); (1583, "062F"); (1584, "0630");
  (1585, "0631"); (1586, "0632"); (1688, "0698"); (1587, "0633");
  (1588, "0634"); (1589, "0635"); (1590, "0636"); (1591, "0637");
  (1592, "0638"); (1593, "0639"); (1594, "063A"); (1601, "0641");
  (1602, "0642"); (1705, "0643"); (1711, "06AF"); (1604, "0644");
  (1605, "0645"); (1606, "0646"); (1608, "0648"); (1607, "0647");
  (1740, "06CC"); (1776, "0660"); (1777, "0661"); (1778, "0662");
  (1779, "0663"); (1780, "0664"); (1781, "0665"); (1782, "0666");
  (1783, "0667"); (1784, "0668"); (1785, "0669")
]%Z.

Definition gsmEncode (s : list rune) : list rune :=
  flat_map (fun c => match lookup c gsm0338 with
                     | Some d => d
                     | None => []
                     end) s.

Fixpoint unicodeEncode (s : list rune) : string :=
  match s with
  | [] => EmptyString
  | c :: s' =>
      match lookup c unicode with
      | Some d => d ++ unicodeEncode s'
      | None => unicodeEncode s'
      end
  end.

End Util2.

(** * The vocabulary of the claims *)

Fixpoint runes_eqb (a b : list rune) : bool :=
  match a, b with
  | [], [] => true
  | x :: a', y :: b' => Z.eqb x y && runes_eqb a' b'
  | _, _ => false
  end.

(** The characters that the 7-bit table encodes behind the escape 0x1B:
    the braces, the brackets, the backslash, the caret, the tilde, the bar
    and the euro sign. *)
Definition escaped (c : rune) : bool :=
  existsb (Z.eqb c) [123; 125; 91; 93; 92; 94; 126; 124; 8364]%Z.

(** The 16-bit encoding in the words of the specification: every character
    as the four upper-case hexadecimal digits of its UTF-16 code unit, the
    groups one after the other. *)
Fixpoint concat_all (l : list string) : string :=
  match l with
  | [] => EmptyString
  | x :: l' => x ++ concat_all l'
  end.







(** A value in double quotes, and a body line of a +CMGL listing: a line
    that is not the echo of the command, does not start another entry, and is
    no terminal status. *)
Definition quoted (s : string) : string := qq ++ s ++ qq.

Definition bodyLine (echo line : string) : bool :=
  negb (String.eqb line echo)
  && negb (startsWith line "+CMGL")
  && negb (isFinalStatus line).




(** * The rest of modem.go *)

(** ** The line reader (lineChannel)

    The reader takes the bytes of the port up to and including the next LF
    (ReadString(10), which at the end of the input returns what it has read),
    trims CR and LF from the right and passes the line on unless it is empty.
    [lineChannel_from cur s] is the list of the lines that it passes on while
    it reads [s], with [cur] the bytes of the current line read so far. *)

Definition emit (line : string) : list string :=
  let line := strings.TrimRight line CRLF in
  if String.eqb line EmptyString then [] else [line].

Fixpoint lineChannel_from (cur s : string) : list string :=
  match s with
  | EmptyString => emit cur
  | String c s' =>
      if (code c =? 10)%nat
      then (emit (cur ++ String c EmptyString) ++ lineChannel_from EmptyString s')%list
      else lineChannel_from (cur ++ String c EmptyString) s'
  end.

Definition lineChannel (s : string) : list string :=
  lineChannel_from EmptyString s.

(** ** The callers: send and the commands built on it

    A command is run by a caller against the engine.  What the caller sees of
    the engine is the channel tx, to which it hands lines, and the channel
    rx, from which it takes packets; [rx] is the sequence of the packets that
    the engine will send, whatever they are, and [tx] the lines handed over
    so far.  The three package variables are part of the state.  A call
    finishes, panics, or waits for ever on an empty rx.  The pauses
    (time.Sleep) and the log are left out. *)

Inductive encodeMode : Type := GSM | UCS2.

Record world : Type := mkWorld {
  EncodeMode : encodeMode;
  SMSCGsm : option value;
  SMSCUcs2 : option value;
  rx : list (option Packet);
  tx : list string
}.

Inductive outcome (A : Type) : Type :=
| Finished (a : A) (w : world)
| Panicked (p : panic) (w : world)
| Blocked (w : world).
Arguments Finished {A} a w.
Arguments Panicked {A} p w.
Arguments Blocked {A} w.

Definition call (A : Type) : Type := world -> outcome A.

Definition ret {A : Type} (a : A) : call A := fun w => Finished a w.

Definition andThen {A B : Type} (m : call A) (k : A -> call B) : call B :=
  fun w =>
    match m w with
    | Finished a w' => k a w'
    | Panicked p w' => Panicked p w'
    | Blocked w' => Blocked w'
    end.

Notation "x <~ m ;; k" := (andThen m (fun x => k))
  (at level 61, m at next level, right associativity).
Notation "' p <~ m ;; k" := (andThen m (fun x => match x with p => k end))
  (at level 61, p pattern, m at next level, right associativity).

(** self.tx <- line *)
Definition transmit (line : string) : call unit :=
  fun w => Finished tt (mkWorld (EncodeMode w) (SMSCGsm w) (SMSCUcs2 w) (rx w)
                                (tx w ++ [line])).

(** <-self.rx *)
Definition receive : call (option Packet) :=
  fun w =>
    match rx w with
    | [] => Blocked w
    | p :: rest =>
        Finished p (mkWorld (EncodeMode w) (SMSCGsm w) (SMSCUcs2 w) rest (tx w))
    end.

Definition lift {A : Type} (r : result A) : call A :=
  fun w =>
    match r with
    | Done a => Finished a w
    | Panic p => Panicked p w
    end.

Definition setEncodeMode (m : encodeMode) : call unit :=
  fun w => Finished tt (mkWorld m (SMSCGsm w) (SMSCUcs2 w) (rx w) (tx w)).

Definition getEncodeMode : call encodeMode :=
  fun w => Finished (EncodeMode w) w.

Definition setSMSCGsm (v : value) : call unit :=
  fun w => Finished tt (mkWorld (EncodeMode w) (Some v) (SMSCUcs2 w) (rx w) (tx w)).

Definition setSMSCUcs2 (v : value) : call unit :=
  fun w => Finished tt (mkWorld (EncodeMode w) (SMSCGsm w) (Some v) (rx w) (tx w)).

(** response.(ERROR) *)
Definition isERROR (p : option Packet) : bool :=
  match p with
  | Some ERROR => true
  | _ => false
  end.

(** An error value of Go is [Some] of its text, nil is [None]. *)
Definition error : Type := option string.

Definition send (cmd : string) (args : list value) : call (option Packet * error) :=
  line <~ lift (formatCommand cmd args) ;;
  _ <~ transmit line ;;
  response <~ receive ;;
  if isERROR response then ret (response, Some "Response was ERROR")
  else ret (response, None).

Definition sendBody (cmd body : string) (args : list value)
  : call (option Packet * error) :=
  line <~ lift (formatCommand cmd args) ;;
  _ <~ transmit line ;;
  _ <~ transmit (body ++ String (ascii_of_nat 26) EmptyString) ;;
  response <~ receive ;;
  if isERROR response then ret (response, Some "Response was ERROR")
  else ret (response, None).

Definition GetMessage (n : Z) : call (option Message * error) :=
  '(packet, err) <~ send "+CMGR" [VInt n] ;;
  match err with
  | Some e => ret (None, Some e)
  | None =>
      match packet with
      | Some (MessagePacket msg) => ret (Some msg, None)
      | _ => ret (None, Some "Message not found")
      end
  end.

Definition GetMessagePDU (n : Z) : call (option Message * error) :=
  _ <~ send "+CMGF" [VInt 0] ;;
  '(packet, err) <~ send "+CMGR" [VInt n] ;;
  match err with
  | Some e => ret (None, Some e)
  | None =>
      _ <~ send "+CMGF" [VInt 1] ;;
      match packet with
      | Some (MessagePacket msg) => ret (Some msg, None)
      | _ => ret (None, Some "Message not found")
      end
  end.

Definition SupportedStorageAreas
  : call (option (list string * list string * list string) * error) :=
  '(packet, err) <~ send "+CPMS" [VString "?"] ;;
  match err with
  | Some e => ret (None, Some e)
  | None =>
      match packet with
      | Some (StorageAreas r w n) => ret (Some (r, w, n), None)
      | _ => ret (None, Some "Unexpected response type")
      end
  end.

Definition DeleteMessage (n : Z) : call error :=
  '(_, err) <~ send "+CMGD" [VInt n] ;;
  ret err.

Definition SendMessagePDU (length : Z) (body : string) : call error :=
  _ <~ send "+CMGF" [VInt 0] ;;
  '(_, err) <~ sendBody "+CMGS" body [VInt length] ;;
  _ <~ send "+CMGF" [VInt 1] ;;
  ret err.

Definition setSMSC (encode : encodeMode) : call error :=
  '(r, err) <~ send "+CSCA?" [] ;;
  match err with
  | Some e => ret (Some e)
  | None =>
      match r with
      | Some (SMSCAddress args) =>
          a0 <~ lift (at_index args 0) ;;
          _ <~ match encode with
               | UCS2 => setSMSCUcs2 a0
               | GSM => setSMSCGsm a0
               end ;;
          '(_, err) <~ send "+CSCA" args ;;
          match err with
          | Some e => ret (Some e)
          | None => ret None
          end
      | _ => lift (Panic BadTypeAssertion)
      end
  end.

Definition ChangeToUCS2 : call error :=
  _ <~ setEncodeMode UCS2 ;;
  '(_, err) <~ send "+CSCS" [VString "UCS2"] ;;
  match err with
  | Some e => ret (Some e)
  | None =>
      '(_, err) <~ send "+CSMP" [VInt 49; VInt 167; VInt 0; VInt 8] ;;
      match err with
      | Some e => ret (Some e)
      | None =>
          err <~ setSMSC UCS2 ;;
          match err with
          | Some e => ret (Some e)
          | None => ret None
          end
      end
  end.

Definition ChangeToGSM : call error :=
  _ <~ setEncodeMode GSM ;;
  '(_, err) <~ send "+CSCS" [VString "GSM"] ;;
  match err with
  | Some e => ret (Some e)
  | None =>
      '(_, err) <~ send "+CSMP" [VInt 49; VInt 167; VInt 0; VInt 0] ;;
      match err with
      | Some e => ret (Some e)
      | None =>
          err <~ setSMSC GSM ;;
          match err with
          | Some e => ret (Some e)
          | None => ret None
          end
      end
  end.

(** init, the method that Open runs on the new modem. *)
Definition init : call error :=
  _ <~ send EmptyString [] ;;
  _ <~ send "Z" [] ;;
  mode <~ getEncodeMode ;;
  err <~ match mode with
         | UCS2 =>
             err <~ setSMSC GSM ;;
             match err with
             | Some e => ret (Some e)
             | None =>
                 err <~ ChangeToUCS2 ;;
                 match err with
                 | Some e => ret (Some e)
                 | None => ret None
                 end
             end
         | GSM =>
             _ <~ ChangeToUCS2 ;;
             _ <~ ChangeToGSM ;;
             ret None
         end ;;
  match err with
  | Some e => ret (Some e)
  | None =>
      _ <~ send "+CMGF" [VInt 1] ;;
      _ <~ send "+CNMI" [VInt 2; VInt 2; VInt 0; VInt 1; VInt 0] ;;
      ret None
  end.

(** A postcondition of a call: what holds of its result and state when it
    finishes (it may also panic or wait). *)
Definition ensures {A : Type} (Q : A -> world -> Prop) (o : outcome A) : Prop :=
  match o with
  | Finished a w => Q a w
  | _ => True
  end.

(** The state in which a call ends, however it ends. *)
Definition final {A : Type} (o : outcome A) : world :=
  match o with
  | Finished _ w | Panicked _ w | Blocked w => w
  end.

(** * The vocabulary of the further properties *)

(** An argument that survives quoting and unquoting: a string without a
    double quote or an integer that is an int; and the value that comes
    back, an int also for an int64. *)
Definition okarg (v : value) : Prop :=
  match v with
  | VString s => strings.Contains s qq = false
  | VInt n | VInt64 n => strconv.is_int n
  | VOther _ => False
  end.

Definition norm (v : value) : value :=
  match v with
  | VInt64 n => VInt n
  | _ => v
  end.

(** [istoken t]: the argument scanner takes [t] as one match, before a comma
    and at the end of the text. *)
Definition istoken (t : string) : Prop :=
  (forall (k : string) (abut : bool),
      regexp.allMatches (S (String.length (t ++ "," ++ k))) (t ++ "," ++ k) abut
      = t :: regexp.allMatches (S (String.length k)) k false)
  /\ (forall abut : bool,
      regexp.allMatches (S (String.length t)) t abut = [t]).

(** A printable ASCII character other than the space. *)
Definition graphic (c : ascii) : bool :=
  ((33 <=? code c) && (code c <=? 126))%nat.

Fixpoint allchars (p : ascii -> bool) (s : string) : bool :=
  match s with
  | EmptyString => true
  | String c s' => p c && allchars p s'
  end.

(** The characters of a decimal number, and those of a list of numbers. *)
Definition isnumc (c : ascii) : bool := Ascii.eqb c "-" || time.isDigit c.

Definition isnumlistc (c : ascii) : bool := Ascii.eqb c "," || isnumc c.

(** The lines that a run writes to the port, the lines that its events
    hand over for transmission, and the number of lines that come in. *)
Fixpoint port_of (acts : list action) : list string :=
  match acts with
  | [] => []
  | PortWrite bytes :: rest => bytes :: port_of rest
  | _ :: rest => port_of rest
  end.

Fixpoint transmitted (evs : list event) : list string :=
  match evs with
  | [] => []
  | Transmit line :: rest => line :: transmitted rest
  | LineIn _ :: rest => transmitted rest
  end.

Fixpoint incoming (evs : list event) : nat :=
  match evs with
  | [] => 0
  | LineIn _ :: rest => S (incoming rest)
  | Transmit _ :: rest => incoming rest
  end.

(** How the engine with echo [E] and prefix [L] takes a line: as the header
    of an entry, as body text (under a pending header), or as the terminal
    status. *)
Definition headerOf (E L line : string) : bool :=
  negb (String.eqb line E) && (nonempty L && startsWith line L).

Definition bodyOf (E L line : string) : bool :=
  negb (String.eqb line E)
  && negb (nonempty L && startsWith line L)
  && negb (isFinalStatus line).

Definition terminalOf (E L line : string) : bool :=
  negb (String.eqb line E)
  && negb (nonempty L && startsWith line L)
  && isFinalStatus line.

(** A Message with its last-in-list flag set to [b], and a list of Messages
    with the flag of the last one set. *)
Definition withLast (b : bool) (m : Message) : Message :=
  mkMessage (Index m) (Status m) (Telephone m) (Timestamp m) (Body m) b.

Fixpoint mark_last (l : list Message) : list Message :=
  match l with
  | [] => []
  | [m] => [withLast true m]
  | m :: rest => m :: mark_last rest
  end.

(** The lines of a listing: for every entry its header and its body lines. *)
Definition entry_lines (entries : list (string * list string)) : list string :=
  flat_map (fun e => fst e :: snd e) entries.

(** An entry of a listing with its Message, for the command AT+CMGL=x: a
    header that starts with +CMGL, body lines, and what the parser makes of
    them. *)
Definition entry_ok (x : string) (e : string * list string) (m : Message) : Prop :=
  startsWith (fst e) "+CMGL" = true
  /\ forallb (bodyLine ("AT+CMGL=" ++ x)) (snd e) = true
  /\ parsePacket EmptyString (fst e) (concat_all (snd e))
     = Done (Some (MessagePacket m)).

(** The line feed, and a character that is none. *)
Definition LF : string := String (ascii_of_nat 10) EmptyString.

Definition notLF (c : ascii) : bool := negb (code c =? 10)%nat.

(** A character that the 7-bit codec of the first util.go gives back:
    one of the encode table that is not behind the escape, or one of neither
    table, or one that the decode table maps to itself. *)
Definition plain (c : rune) : bool :=
  match lookup c Util1.gsm0338Encode with
  | Some _ => negb (escaped c)
  | None =>
      match lookup c Util1.gsm0338Decode with
      | Some d => Z.eqb d c
      | None => true
      end
  end.

(** The characters of the 7-bit table of the second util.go. *)
Definition gsmCovered (c : rune) : bool :=
  match lookup c Util2.gsm0338 with Some _ => true | None => false end.

Definition septet (x : rune) : bool := ((0 <=? x) && (x <? 128))%Z.

Definition unit16 (x : Z) : bool := ((0 <=? x) && (x <? 65536))%Z.

(** A time of the device as its text: two decimal digits for each field,
    in the order of TimeFormat; and the year that a two-digit year stands
    for. *)
Definition two (n : Z) : string :=
  String (ascii_of_nat (48 + Z.to_nat (n / 10)))
    (String (ascii_of_nat (48 + Z.to_nat (n mod 10))) EmptyString).

Definition stamp (yy mo d h mi s : Z) : string :=
  two yy ++ "/" ++ two mo ++ "/" ++ two d ++ "," ++ two h ++ ":" ++ two mi
    ++ ":" ++ two s.

Definition fullYear (yy : Z) : Z :=
  if (yy >=? 69)%Z then (yy + 1900)%Z else (yy + 2000)%Z.

(** * Properties *)

(** ** Strings *)

Lemma append_nil_r (s : string) : s ++ EmptyString = s.
Proof. induction s as [|c s IH]; simpl; congruence. Qed.

Lemma append_assoc (a b c : string) : (a ++ b) ++ c = a ++ b ++ c.
Proof. induction a as [|x a IH]; simpl; congruence. Qed.

Lemma length_append (a b : string) :
  String.length (a ++ b) = String.length a + String.length b.
Proof. induction a as [|x a IH]; simpl; congruence. Qed.

Lemma HasPrefix_append (p s : string) : strings.HasPrefix (p ++ s) p = true.
Proof.
  induction p as [|c p IH]; simpl; [reflexivity|].
  now rewrite Ascii.eqb_refl.
Qed.

Lemma HasPrefix_inv (s p : string) :
  strings.HasPrefix s p = true -> exists r, s = p ++ r.
Proof.
  revert s; induction p as [|c p IH]; intros s H; simpl in *.
  - now exists s.
  - destruct s as [|b s]; [discriminate|].
    apply andb_true_iff in H as [Hc Hp].
    apply Ascii.eqb_eq in Hc; subst b.
    destruct (IH _ Hp) as [r ->]. now exists r.
Qed.

(** Index(s, p) == 0 says that [p] is a prefix of [s]. *)
Lemma startsWith_HasPrefix (s p : string) :
  startsWith s p = strings.HasPrefix s p.
Proof.
  unfold startsWith.
  destruct s as [|c s]; simpl; destruct (strings.HasPrefix _ p); try reflexivity.
  now destruct (strings.Index s p).
Qed.

(** ** Decimal numbers *)

Lemma string_of_uint_head (d : Decimal.uint) :
  d <> Decimal.Nil ->
  exists c r, NilEmpty.string_of_uint d = String c r
              /\ Ascii.eqb c "-" = false /\ Ascii.eqb c "+" = false
              /\ strings.HasPrefix (String c r) qq = false.
Proof.
  destruct d; intros H; try congruence; simpl; eauto 10.
Qed.

Lemma digits_string_of_uint (d : Decimal.uint) :
  d <> Decimal.Nil ->
  strconv.digits (NilEmpty.string_of_uint d) = Some (Z.of_uint d).
Proof.
  intros H. unfold strconv.digits.
  destruct (string_of_uint_head d H) as (c & r & E & _).
  rewrite NilEmpty.usu. now rewrite E.
Qed.

Lemma Z_of_uint_to_uint (p : positive) : Z.of_uint (Pos.to_uint p) = Z.pos p.
Proof. unfold Z.of_uint. now rewrite Unsigned.of_to. Qed.

(** Atoi reads back what Itoa writes, for every int. *)
Lemma Atoi_Itoa (n : Z) : strconv.is_int n -> strconv.Atoi (strconv.Itoa n) = Some n.
Proof.
  intros Hn. unfold strconv.Itoa.
  destruct n as [|p|p]; [reflexivity| |]; simpl.
  - destruct (string_of_uint_head (Pos.to_uint p) (Unsigned.to_uint_nonnil p))
      as (c & r & E & Hm & Hp & _).
    unfold strconv.Atoi. rewrite E, Hm, Hp, <- E.
    rewrite digits_string_of_uint by apply Unsigned.to_uint_nonnil.
    rewrite Z_of_uint_to_uint.
    assert (R : strconv.in_range (Z.pos p) = true).
    { unfold strconv.in_range, strconv.is_int in *.
      apply andb_true_iff; split; apply Z.leb_le; lia. }
    now rewrite R.
  - unfold strconv.Atoi; simpl.
    rewrite digits_string_of_uint by apply Unsigned.to_uint_nonnil.
    rewrite Z_of_uint_to_uint.
    assert (R : strconv.in_range (- Z.pos p) = true).
    { unfold strconv.in_range, strconv.is_int in *.
      apply andb_true_iff; split; apply Z.leb_le; lia. }
    now rewrite R.
Qed.

Lemma Itoa_not_quoted (n : Z) : startsWith (strconv.Itoa n) qq = false.
Proof.
  rewrite startsWith_HasPrefix. unfold strconv.Itoa.
  destruct n as [|p|p]; [reflexivity| |reflexivity]; simpl.
  destruct (string_of_uint_head (Pos.to_uint p) (Unsigned.to_uint_nonnil p))
    as (c & r & E & _ & _ & Hq).
  now rewrite E.
Qed.

(** The string that Itoa writes is a decimal numeral of value [n]. *)
Lemma Itoa_denotes (n : Z) :
  option_map Z.of_int (NilEmpty.int_of_string (strconv.Itoa n)) = Some n.
Proof.
  unfold strconv.Itoa. rewrite NilEmpty.isi. simpl. now rewrite DecimalZ.of_to.
Qed.

(** ** The command formatter *)

(** C3, amended: quote wraps every string in double quotes except the
    literal ?, which it returns as it is; it renders an int and an int64 as
    the decimal numeral of its value; and for an argument of any other type
    it panics with the message Unsupported argument type: T, an abort of the
    goroutine and not an error that it returns. *)
Theorem quote_cases :
  (forall s : string,
      quote (VString s) = Done (if String.eqb s "?" then s else qq ++ s ++ qq))
  /\ (forall n : Z,
      quote (VInt n) = Done (strconv.Itoa n)
      /\ quote (VInt64 n) = Done (strconv.Itoa n)
      /\ option_map Z.of_int (NilEmpty.int_of_string (strconv.Itoa n)) = Some n)
  /\ (forall T : string,
      quote (VOther T) = Panic (PanicMsg ("Unsupported argument type: " ++ T))
      /\ panics (quote (VOther T)) = true).
Proof.
  split; [|split].
  - intros s; simpl. now destruct (String.eqb s "?").
  - intros n; repeat split; apply Itoa_denotes.
  - intros T; split; reflexivity.
Qed.

(** C3 as stated fails: for a float64 argument quote does not come back
    with an error, it panics. *)
Lemma quote_float64_panics :
  quote (VOther "float64")
  = Panic (PanicMsg "Unsupported argument type: float64")
  /\ panics (quote (VOther "float64")) = true
  /\ panics (formatCommand "+CMGS" [VOther "float64"]) = true.
Proof. repeat split. Qed.

Lemma quote_all_Forall2 (args : list value) (qs : list string) :
  Forall2 (fun a q => quote a = Done q) args qs -> quote_all args = Done qs.
Proof.
  induction 1 as [|a q args qs Hq _ IH]; simpl; [reflexivity|].
  now rewrite Hq, IH.
Qed.

(** C9: formatCommand gives AT and the name, then = and the quoted
    arguments joined by commas exactly when there are arguments, then CR LF;
    +CMGS with the string +15551234 gives AT+CMGS= and the quoted number. *)
Theorem formatCommand_line (name : string) (args : list value) (qs : list string) :
  Forall2 (fun a q => quote a = Done q) args qs ->
  formatCommand name args
  = Done ("AT" ++ name
          ++ match args with
             | [] => EmptyString
             | _ :: _ => "=" ++ strings.Join qs ","
             end
          ++ CRLF)
  /\ formatCommand "+CMGS" [VString "+15551234"]
     = Done ("AT+CMGS=" ++ qq ++ "+15551234" ++ qq ++ CRLF).
Proof.
  intros H; split; [|reflexivity].
  unfold formatCommand, quotes.
  rewrite (quote_all_Forall2 _ _ H).
  destruct args as [|a args]; simpl; now rewrite ?append_assoc.
Qed.

Lemma formatCommand_line_witness :
  formatCommand "+CMGL" [VString "ALL"; VInt 4; VString "?"]
  = Done ("AT+CMGL=" ++ qq ++ "ALL" ++ qq ++ ",4,?" ++ CRLF).
Proof.
  refine (proj1 (formatCommand_line "+CMGL" [VString "ALL"; VInt 4; VString "?"]
                   [qq ++ "ALL" ++ qq; "4"; "?"] _)).
  repeat constructor.
Defined.

(** ** Quoting and unquoting *)

Lemma in_cutset_qq (c : ascii) : strings.in_cutset qq c = Ascii.eqb c dquote.
Proof. unfold strings.in_cutset; simpl. apply orb_false_r. Qed.

Lemma TrimRight_append_qq (s : string) :
  strings.TrimRight (s ++ qq) qq = strings.TrimRight s qq.
Proof.
  induction s as [|c s IH]; [reflexivity|].
  simpl. now rewrite IH.
Qed.

Lemma TrimRight_qq_id (s : string) :
  (forall r, s <> r ++ qq) -> strings.TrimRight s qq = s.
Proof.
  induction s as [|c s IH]; intros H; [reflexivity|].
  simpl. rewrite IH.
  - destruct s as [|d s]; [|reflexivity].
    rewrite in_cutset_qq.
    destruct (Ascii.eqb_spec c dquote) as [->|]; [|reflexivity].
    now destruct (H EmptyString).
  - intros r ->. now apply (H (String c r)).
Qed.

Lemma Trim_quoted (s : string) :
  (forall r, s <> String dquote r) -> (forall r, s <> r ++ qq) ->
  strings.Trim (qq ++ s ++ qq) qq = s.
Proof.
  intros Hb He. unfold strings.Trim.
  change (qq ++ s ++ qq) with (String dquote (s ++ qq)).
  cbn [strings.TrimLeft]. rewrite in_cutset_qq, Ascii.eqb_refl.
  destruct s as [|c s]; [reflexivity|].
  cbn [append strings.TrimLeft]. rewrite in_cutset_qq.
  destruct (Ascii.eqb_spec c dquote) as [->|_]; [now destruct (Hb s)|].
  change (String c (s ++ qq)) with (String c s ++ qq).
  rewrite TrimRight_append_qq. now apply TrimRight_qq_id.
Qed.

(** C10: unquote undoes quote.  A string that neither begins nor ends with
    a double quote comes back as the same string (the literal ? and strings
    of digits too), and an int comes back as the same int. *)
Theorem unquote_quote :
  (forall s : string,
      (forall r, s <> String dquote r) -> (forall r, s <> r ++ qq) ->
      exists q, quote (VString s) = Done q /\ unquote q = VString s)
  /\ (forall n : Z,
      strconv.is_int n ->
      exists q, quote (VInt n) = Done q /\ quote (VInt64 n) = Done q
                /\ unquote q = VInt n).
Proof.
  split.
  - intros s Hb He. simpl.
    destruct (String.eqb_spec s "?") as [->|Hs].
    + exists "?". split; reflexivity.
    + exists (qq ++ s ++ qq). split; [reflexivity|].
      unfold unquote. rewrite startsWith_HasPrefix, HasPrefix_append.
      now rewrite Trim_quoted.
  - intros n Hn. exists (strconv.Itoa n). split; [reflexivity|].
    split; [reflexivity|].
    unfold unquote. now rewrite Itoa_not_quoted, Atoi_Itoa.
Qed.

Lemma unquote_quote_witness :
  (exists q, quote (VString "0042") = Done q /\ unquote q = VString "0042")
  /\ (exists q, quote (VInt (-17)) = Done q /\ quote (VInt64 (-17)) = Done q
                /\ unquote q = VInt (-17)).
Proof.
  split.
  - apply (proj1 unquote_quote "0042").
    + intros r H; discriminate H.
    + intros [|a [|b [|c [|d [|e r]]]]] H; discriminate H.
  - apply (proj2 unquote_quote (-17)%Z).
    unfold strconv.is_int, strconv.minInt, strconv.maxInt. lia.
Defined.

(** ** The codecs *)

Lemma lookup_In {V : Type} (c : rune) (m : list (rune * V)) (v : V) :
  lookup c m = Some v -> In (c, v) m.
Proof.
  induction m as [|[k w] m IH]; simpl; [discriminate|].
  destruct (Z.eqb_spec c k) as [->|_].
  - intros [= ->]. now left.
  - intros H. right. now apply IH.
Qed.

(** A property of every entry of a table, checked entry by entry. *)
Lemma lookup_forallb {V : Type} (P : rune * V -> bool) (m : list (rune * V)) :
  forallb P m = true ->
  forall c v, lookup c m = Some v -> P (c, v) = true.
Proof.
  intros H c v Hl. apply lookup_In in Hl.
  rewrite forallb_forall in H. now apply H.
Qed.

Lemma runes_eqb_eq (a b : list rune) : runes_eqb a b = true -> a = b.
Proof.
  revert b; induction a as [|x a IH]; intros [|y b]; simpl; try discriminate.
  - reflexivity.
  - intros H. apply andb_true_iff in H as [Hx Hr].
    apply Z.eqb_eq in Hx. f_equal; auto.
Qed.

(** C8: a character of the 7-bit encode table that is not one of the
    escaped ones is given back by decoding its encoding. *)
Theorem gsmDecode_gsmEncode (c : rune) (d : list rune) :
  lookup c Util1.gsm0338Encode = Some d ->
  escaped c = false ->
  Util1.gsmDecode (Util1.gsmEncode [c]) = [c].
Proof.
  intros Hl He.
  pose proof (lookup_forallb
    (fun e => escaped (fst e)
              || runes_eqb (Util1.gsmDecode (Util1.gsmEncode [fst e])) [fst e])
    Util1.gsm0338Encode eq_refl c d Hl) as H.
  cbn [fst] in H. rewrite He in H. now apply runes_eqb_eq.
Qed.

Lemma gsmDecode_gsmEncode_witness :
  Util1.gsmDecode (Util1.gsmEncode [64%Z]) = [64%Z].
Proof.
  exact (gsmDecode_gsmEncode 64%Z [0%Z] eq_refl eq_refl).
Defined.

Lemma length_concat_all (l : list string) :
  Forall (fun d => String.length d = 4) l ->
  String.length (concat_all l) = 4 * List.length l.
Proof.
  induction 1 as [|d l Hd _ IH]; simpl; [reflexivity|].
  rewrite length_append, Hd, IH. lia.
Qed.




(** The first util.go. *)


Lemma substring_prefix (a b : string) :
  substring 0 (String.length a) (a ++ b) = a.
Proof.
  induction a as [|c a IH]; simpl.
  - now destruct b.
  - now rewrite IH.
Qed.

Lemma removeSpaces_append (a b : string) :
  Util1.removeSpaces (a ++ b) = Util1.removeSpaces a ++ Util1.removeSpaces b.
Proof.
  induction a as [|c a IH]; simpl; [reflexivity|].
  destruct (Ascii.eqb c " "); simpl; now rewrite IH.
Qed.

Lemma hexdigit_not_space (u : bool) (d : Z) :
  (0 <= d < 16)%Z -> Ascii.eqb (hexdigit u d) " " = false.
Proof.
  intros H.
  assert (C : In d [0; 1; 2; 3; 4; 5; 6; 7; 8; 9; 10; 11; 12; 13; 14; 15]%Z).
  { assert (d = 0 \/ d = 1 \/ d = 2 \/ d = 3 \/ d = 4 \/ d = 5 \/ d = 6
            \/ d = 7 \/ d = 8 \/ d = 9 \/ d = 10 \/ d = 11 \/ d = 12
            \/ d = 13 \/ d = 14 \/ d = 15)%Z as D by lia.
    simpl. intuition auto. }
  simpl in C.
  repeat (destruct C as [<-|C]; [now destruct u|]).
  destruct C.
Qed.

Lemma removeSpaces_hex4 (u : bool) (v : Z) :
  Util1.removeSpaces (hex4 u v) = hex4 u v.
Proof.
  unfold hex4; simpl.
  rewrite !hexdigit_not_space by (apply Z.mod_pos_bound; lia).
  reflexivity.
Qed.

Lemma removeSpaces_Join (u : bool) (a : list Z) :
  Util1.removeSpaces (strings.Join (map (hex4 u) a) " ")
  = concat_all (map (hex4 u) a).
Proof.
  induction a as [|v a IH]; [reflexivity|].
  destruct a as [|w a].
  - cbn [map strings.Join concat_all].
    now rewrite removeSpaces_hex4, append_nil_r.
  - cbn [map strings.Join concat_all] in *.
    rewrite removeSpaces_append, removeSpaces_hex4. f_equal.
    rewrite removeSpaces_append. exact IH.
Qed.





(** ** Device times *)

(** C4: parseTime gives the zero time for a malformed input of three
    characters or more, but an input of fewer than three characters makes the
    slice t[:len(t)-3] panic; a +CMGR reply whose time field is empty takes
    the whole parse down with it. *)
Theorem parseTime_short_input :
  (forall t : string,
      (String.length t <? 3)%nat = true -> parseTime t = Panic SliceOutOfRange)
  /\ (forall t : string,
      (String.length t <? 3)%nat = false ->
      time.ParseTimeFormat (substring 0 (String.length t - 3) t) = None ->
      parseTime t = Done time.zero)
  /\ parseTime EmptyString = Panic SliceOutOfRange
  /\ parseTime "+0" = Panic SliceOutOfRange
  /\ parsePacket "OK"
       ("+CMGR: " ++ qq ++ "REC READ" ++ qq ++ "," ++ qq ++ "+123" ++ qq ++ ",,")
       "hello"
     = Panic SliceOutOfRange.
Proof.
  split; [|split; [|repeat split]].
  - intros t H. unfold parseTime. now rewrite H.
  - intros t H E. unfold parseTime. now rewrite H, E.
Qed.

(** ** The packet parser *)

Lemma parsePacket_CMGL_args (status rest body : string) :
  parsePacket status ("+CMGL:" ++ rest) body
  = let args := unquotes (strings.TrimSpace rest) in
    a2 <- at_index args 2 ;;
    if isInt a2 then
      a0 <- at_index args 0 ;; idx <- asInt a0 ;;
      a1 <- at_index args 1 ;; st <- asString a1 ;;
      a2 <- at_index args 2 ;; tel <- asInt a2 ;;
      Done (Some (MessagePacket
        (mkMessage idx st (strconv.Itoa tel) time.zero body
                   (negb (String.eqb status EmptyString)))))
    else
      a0 <- at_index args 0 ;; idx <- asInt a0 ;;
      a1 <- at_index args 1 ;; st <- asString a1 ;;
      a2 <- at_index args 2 ;; tel <- asString a2 ;;
      a4 <- at_index args 4 ;; ts <- asString a4 ;;
      t <- parseTime ts ;;
      Done (Some (MessagePacket
        (mkMessage idx st tel t body
                   (negb (String.eqb status EmptyString))))).
Proof. reflexivity. Qed.

(** C5: the two branches of case +CMGL, for a header whose first argument
    is an integer and whose second is a string.  The telephone is a string in
    both: the decimal form of an integer third argument, a string third
    argument as it is.  The timestamp is not treated alike.  The branch of
    the string telephone sets it to the device time parsed from the fifth
    argument (a string of three characters or more); the branch of the
    integer telephone does not read the fifth argument and leaves the
    timestamp at the zero time, also when a well-formed device time is there.
    The second branch misses what its sibling does: a defect of the code, not
    a rule of the format. *)
Theorem parsePacket_CMGL_fields
        (status rest body : string) (idx : Z) (st : string) (a2 : value)
        (more : list value) :
  unquotes (strings.TrimSpace rest) = VInt idx :: VString st :: a2 :: more ->
  match a2 with
  | VInt n =>
      parsePacket status ("+CMGL:" ++ rest) body
      = Done (Some (MessagePacket
          (mkMessage idx st (strconv.Itoa n) time.zero body
                     (negb (String.eqb status EmptyString)))))
  | VString tel =>
      forall (a3 : value) (ts : string) (more' : list value),
        more = a3 :: VString ts :: more' ->
        (String.length ts <? 3)%nat = false ->
        parsePacket status ("+CMGL:" ++ rest) body
        = Done (Some (MessagePacket
            (mkMessage idx st tel
               (match time.ParseTimeFormat
                        (substring 0 (String.length ts - 3) ts) with
                | Some t => t
                | None => time.zero
                end) body
               (negb (String.eqb status EmptyString)))))
  | _ => True
  end.
Proof.
  intros H. destruct a2 as [tel|n|n|T]; try exact I.
  - intros a3 ts more' -> Hts.
    rewrite parsePacket_CMGL_args. cbv zeta. rewrite H.
    cbn [at_index nth_error bind isInt asInt asString].
    unfold parseTime. rewrite Hts.
    now destruct (time.ParseTimeFormat _).
  - rewrite parsePacket_CMGL_args. cbv zeta. now rewrite H.
Qed.

Lemma parsePacket_CMGL_fields_witness :
  parsePacket EmptyString
    ("+CMGL:" ++ " 7," ++ qq ++ "REC UNREAD" ++ qq ++ ",989121234567,,"
      ++ qq ++ "21/03/20,08:30:00+14" ++ qq) "salam"
  = Done (Some (MessagePacket
      (mkMessage 7 "REC UNREAD" "989121234567" time.zero "salam" false)))
  /\ parsePacket "OK"
       ("+CMGL:" ++ " 8," ++ qq ++ "REC READ" ++ qq ++ "," ++ qq ++ "+15551234"
         ++ qq ++ ",," ++ qq ++ "21/03/20,08:30:00+14" ++ qq) "hi"
     = Done (Some (MessagePacket
         (mkMessage 8 "REC READ" "+15551234" (time.mkTime 2021 3 20 8 30 0 0)
                    "hi" true))).
Proof.
  split.
  - exact (parsePacket_CMGL_fields EmptyString
             (" 7," ++ qq ++ "REC UNREAD" ++ qq ++ ",989121234567,,"
               ++ qq ++ "21/03/20,08:30:00+14" ++ qq)
             "salam" 7 "REC UNREAD"
             (VInt 989121234567)
             [VString EmptyString; VString "21/03/20,08:30:00+14"] eq_refl).
  - exact (parsePacket_CMGL_fields "OK"
             (" 8," ++ qq ++ "REC READ" ++ qq ++ "," ++ qq ++ "+15551234"
               ++ qq ++ ",," ++ qq ++ "21/03/20,08:30:00+14" ++ qq)
             "hi" 8 "REC READ"
             (VString "+15551234")
             [VString EmptyString; VString "21/03/20,08:30:00+14"] eq_refl
             (VString EmptyString) "21/03/20,08:30:00+14" [] eq_refl eq_refl).
Defined.

(** The defect at a concrete header: with an integer telephone the fifth
    argument is a well-formed device time, which parseTime reads, and the
    Message has the zero time; and with a string telephone and no fifth
    argument the unguarded args[4] panics. *)
Lemma CMGL_timestamp_not_as_claimed :
  parsePacket EmptyString
    ("+CMGL: 1," ++ qq ++ "REC READ" ++ qq ++ ",123,," ++ qq
      ++ "14/01/01,12:00:00+00" ++ qq) "hi"
  = Done (Some (MessagePacket
      (mkMessage 1 "REC READ" "123" time.zero "hi" false)))
  /\ unquotes ("1," ++ qq ++ "REC READ" ++ qq ++ ",123,," ++ qq
               ++ "14/01/01,12:00:00+00" ++ qq)
     = [VInt 1; VString "REC READ"; VInt 123; VString EmptyString;
        VString "14/01/01,12:00:00+00"]
  /\ parseTime "14/01/01,12:00:00+00" = Done (time.mkTime 2014 1 1 12 0 0 0)
  /\ parsePacket EmptyString
       ("+CMGL: 1," ++ qq ++ "REC READ" ++ qq ++ "," ++ qq ++ "+123" ++ qq) "hi"
     = Panic IndexOutOfRange.
Proof. repeat split. Qed.

(** ** The protocol engine *)

Lemma listen_step_no_oob (st st' : engine) (ev : event) (acts : list action) :
  listen_step st ev = Done (st', acts) -> oob_of acts = [].
Proof.
  unfold listen_step. destruct ev as [line|line].
  - repeat match goal with
           | |- context [if ?b then _ else _] => destruct b
           | |- context [bind ?r _] => destruct r as [[?|]|]; cbn [bind]
           end;
      intros [= <- <-] || discriminate; reflexivity.
  - intros [= <- <-]. reflexivity.
Qed.

Lemma oob_of_app (a b : list action) :
  oob_of (a ++ b) = (oob_of a ++ oob_of b)%list.
Proof.
  induction a as [|x a IH]; [reflexivity|].
  destruct x; simpl; now rewrite IH.
Qed.

Lemma rx_of_app (a b : list action) :
  rx_of (a ++ b) = (rx_of a ++ rx_of b)%list.
Proof.
  induction a as [|x a IH]; [reflexivity|].
  destruct x; simpl; now rewrite IH.
Qed.

(** No run of the engine ever sends on the out-of-band channel. *)
Lemma listen_no_oob (evs : list event) :
  forall (st st' : engine) (acts : list action),
    listen st evs = Done (st', acts) -> oob_of acts = [].
Proof.
  induction evs as [|ev evs IH]; intros st st' acts; simpl.
  - now intros [= <- <-].
  - destruct (listen_step st ev) as [[st1 acts1]|] eqn:E1; [|discriminate].
    cbn [bind].
    destruct (listen st1 evs) as [[st2 acts2]|] eqn:E2; [|discriminate].
    cbn [bind]. intros [= <- <-].
    rewrite oob_of_app, (listen_step_no_oob _ _ _ _ E1), (IH _ _ _ E2).
    reflexivity.
Qed.

(** C1: a line that is no echo, no continuation, no terminal status, no
    body under a pending header and not the data prompt is parsed with the
    status OK, and the packet is never sent on the response channel; but
    the engine does not send it on the out-of-band channel either: the
    packet is written to the log and dropped. *)
Theorem listen_step_unsolicited (st : engine) (line : string) (p : Packet) :
  String.eqb line (echo st) = false ->
  nonempty (last st) && startsWith line (last st) = false ->
  isFinalStatus line = false ->
  header st = EmptyString ->
  String.eqb line "> " = false ->
  parsePacket "OK" line EmptyString = Done (Some p) ->
  exists acts : list action,
    listen_step st (LineIn line) = Done (st, acts)
    /\ rx_of acts = []
    /\ In (LogPacket "self.OOB <- p" p) acts
    /\ oob_of acts = [].
Proof.
  intros He Hc Hf Hh Hd Hp.
  unfold listen_step. rewrite He, Hc, Hf, Hh, Hd, Hp.
  cbn [nonempty String.eqb negb bind].
  eexists. split; [reflexivity|].
  split; [reflexivity|]. split; [|reflexivity].
  simpl. tauto.
Qed.

Lemma listen_step_unsolicited_witness :
  exists acts : list action,
    listen_step (mkEngine "ATZ" "+CMGL" EmptyString EmptyString)
                (LineIn ("+CMTI: " ++ qq ++ "SM" ++ qq ++ ",4"))
    = Done (mkEngine "ATZ" "+CMGL" EmptyString EmptyString, acts)
    /\ rx_of acts = []
    /\ In (LogPacket "self.OOB <- p" (MessageNotification "SM" 4)) acts
    /\ oob_of acts = [].
Proof.
  exact (listen_step_unsolicited
           (mkEngine "ATZ" "+CMGL" EmptyString EmptyString)
           ("+CMTI: " ++ qq ++ "SM" ++ qq ++ ",4")
           (MessageNotification "SM" 4)
           eq_refl eq_refl eq_refl eq_refl eq_refl eq_refl).
Defined.

(** ** Listing messages *)

Lemma TrimRight_append_CRLF (s : string) :
  strings.TrimRight (s ++ CRLF) CRLF = strings.TrimRight s CRLF.
Proof.
  induction s as [|c s IH]; [reflexivity|].
  cbn [append strings.TrimRight]. now rewrite IH.
Qed.

Lemma TrimRight_keep (cutset s : string) (c : ascii) :
  strings.in_cutset cutset c = false ->
  strings.TrimRight (s ++ String c EmptyString) cutset = s ++ String c EmptyString.
Proof.
  intros Hc. induction s as [|x s IH].
  - cbn [append strings.TrimRight]. now rewrite Hc.
  - cbn [append strings.TrimRight]. rewrite IH. now destruct s.
Qed.

(** The echo that the engine records for the command of ListMessages. *)
Lemma echo_of_CMGL (filter : string) :
  strings.TrimRight
    ("AT+CMGL=" ++ (if String.eqb filter "?" then filter else quoted filter)
                ++ CRLF) CRLF
  = "AT+CMGL=" ++ (if String.eqb filter "?" then filter else quoted filter).
Proof.
  rewrite <- append_assoc, TrimRight_append_CRLF.
  destruct (String.eqb_spec filter "?") as [->|_]; [reflexivity|].
  unfold quoted, qq. rewrite <- !append_assoc.
  now apply TrimRight_keep.
Qed.

Lemma reQuestion_CMGL (x : string) :
  regexp.reQuestion_group ("AT+CMGL=" ++ x) = Some "+CMGL".
Proof. reflexivity. Qed.

Lemma formatCommand_CMGL (filter : string) :
  formatCommand "+CMGL" [VString filter]
  = Done ("AT+CMGL=" ++ (if String.eqb filter "?" then filter else quoted filter)
                     ++ CRLF).
Proof.
  unfold formatCommand, quotes. cbn [quote_all quote].
  now destruct (String.eqb filter "?").
Qed.

Section Listing.

Variables E h b line : string.
Lemma step_echo (l : string) :
  listen_step (mkEngine E l h b) (LineIn E) = Done (mkEngine E l h b, [Log "case line := <-in"]).
Proof. unfold listen_step. cbn [echo]. now rewrite String.eqb_refl. Qed.

Hypothesis not_echo : String.eqb line E = false.

Lemma step_first_header :
  startsWith line "+CMGL" = true ->
  listen_step (mkEngine E "+CMGL" EmptyString b) (LineIn line)
  = Done (mkEngine E "+CMGL" line EmptyString, [Log "case line := <-in"]).
Proof.
  intros Hs. unfold listen_step. cbn [echo last header body].
  now rewrite not_echo, Hs.
Qed.

Lemma step_next_header (pk : option Packet) :
  startsWith line "+CMGL" = true ->
  nonempty h = true ->
  parsePacket EmptyString h b = Done pk ->
  listen_step (mkEngine E "+CMGL" h b) (LineIn line)
  = Done (mkEngine E "+CMGL" line EmptyString, [Log "case line := <-in"; ToRx pk]).
Proof.
  intros Hs Hh Hp. unfold listen_step. cbn [echo last header body].
  now rewrite not_echo, Hs, Hh, Hp.
Qed.

Lemma step_body :
  startsWith line "+CMGL" = false ->
  isFinalStatus line = false ->
  nonempty h = true ->
  listen_step (mkEngine E "+CMGL" h b) (LineIn line)
  = Done (mkEngine E "+CMGL" h (b ++ line), [Log "case line := <-in"]).
Proof.
  intros Hs Hf Hh. unfold listen_step. cbn [echo last header body].
  now rewrite not_echo, Hs, Hf, Hh.
Qed.

Lemma step_final (pk : option Packet) :
  startsWith line "+CMGL" = false ->
  isFinalStatus line = true ->
  parsePacket line h b = Done pk ->
  listen_step (mkEngine E "+CMGL" h b) (LineIn line)
  = Done (mkEngine E "+CMGL" EmptyString EmptyString, [Log "case line := <-in"; ToRx pk]).
Proof.
  intros Hs Hf Hp. unfold listen_step. cbn [echo last header body].
  now rewrite not_echo, Hs, Hf, Hp.
Qed.

End Listing.

Lemma cut_colon_cons (c : ascii) (r : string) :
  Ascii.eqb ":" c = false ->
  strings.cut (String c r) ":"
  = match strings.cut r ":" with
    | Some (a, b) => Some (String c a, b)
    | None => None
    end.
Proof.
  intros H. cbn [strings.cut strings.HasPrefix]. now rewrite H.
Qed.

(** A header that starts with +CMGL and that the parser reads as a Message
    is a +CMGL header: the name before its colon is +CMGL. *)
Lemma Message_header_CMGL (status h b : string) (m : Message) :
  strings.HasPrefix h "+CMGL" = true ->
  parsePacket status h b = Done (Some (MessagePacket m)) ->
  exists rest, h = "+CMGL:" ++ rest.
Proof.
  intros Hp H. apply HasPrefix_inv in Hp as [r ->].
  destruct r as [|c r].
  - discriminate H.
  - destruct (Ascii.eqb_spec c ":") as [->|Hc]; [now exists r|].
    exfalso.
    assert (Hc' : Ascii.eqb ":" c = false)
      by (rewrite Ascii.eqb_sym; now apply Ascii.eqb_neq).
    assert (C : strings.cut ("+CMGL" ++ String c r) ":"
                = match strings.cut (String c r) ":" with
                  | Some (a, b) => Some ("+CMGL" ++ a, b)
                  | None => None
                  end).
    { generalize (String c r); intros t. cbn.
      now destruct (strings.cut t ":") as [[a x]|]. }
    unfold parsePacket in H. cbn [strings.SplitN] in H.
    rewrite C, (cut_colon_cons c r Hc') in H.
    destruct (strings.cut r ":") as [[a rest]|]; [|discriminate H].
    cbn [append String.eqb Ascii.eqb Bool.eqb andb] in H.
    discriminate H.
Qed.

Lemma CMGL_Last (status h b : string) (m : Message) :
  strings.HasPrefix h "+CMGL" = true ->
  parsePacket status h b = Done (Some (MessagePacket m)) ->
  Last m = negb (String.eqb status EmptyString).
Proof.
  intros Hp H. destruct (Message_header_CMGL _ _ _ _ Hp H) as [rest ->].
  rewrite parsePacket_CMGL_args in H. cbv zeta in H.
  repeat match type of H with
         | context [bind ?r _] => destruct r; cbn [bind] in H
         | context [if ?c then _ else _] => destruct c
         end;
    try discriminate H; now injection H as <-.
Qed.

Lemma header_not_echo (h x : string) :
  startsWith h "+CMGL" = true ->
  String.eqb h ("AT+CMGL=" ++ x) = false /\ nonempty h = true.
Proof.
  rewrite startsWith_HasPrefix. intros H.
  apply HasPrefix_inv in H as [r ->]. split; reflexivity.
Qed.

Lemma bodyLine_inv (E line : string) :
  bodyLine E line = true ->
  String.eqb line E = false
  /\ startsWith line "+CMGL" = false
  /\ isFinalStatus line = false.
Proof.
  unfold bodyLine. intros H.
  apply andb_true_iff in H as [H H3]. apply andb_true_iff in H as [H1 H2].
  repeat split; now apply negb_true_iff.
Qed.

(** A line that comes in while a +CMGL header is pending with no body yet,
    and that neither starts an entry nor is a terminal status: the engine
    skips it when it is the echo of the command and takes it as the body
    otherwise. *)
Lemma step_body_line (E h line : string) :
  startsWith line "+CMGL" = false ->
  isFinalStatus line = false ->
  nonempty h = true ->
  listen_step (mkEngine E "+CMGL" h EmptyString) (LineIn line)
  = Done (mkEngine E "+CMGL" h (if String.eqb line E then EmptyString else line),
          [Log "case line := <-in"]).
Proof.
  intros Hs Hf Hh. destruct (String.eqb_spec line E) as [->|N].
  - apply step_echo.
  - apply (step_body E h EmptyString line); try assumption.
    now apply String.eqb_neq.
Qed.

(** C2, amended.  When the +CMGL command is sent with no header pending and
    is answered (after its echo or without one) by two lines that start with
    +CMGL and that the parser reads as Messages, each followed by one line
    that does not start with +CMGL and is no terminal status (OK, ERROR, a
    line with +CMS ERROR or +CME ERROR in it), and then OK, ListMessages
    returns the two Messages in the order of arrival; each is what the parser
    makes of its header with that line as the body (with no body when the
    line is the echo of the command, which the engine skips); the first has
    the last-in-list flag false and the second has it true, the flag of a
    +CMGL entry being true exactly when the status it is flushed with is not
    empty. *)
Theorem ListMessages_two_entries
        (st : engine) (filter h1 b1 h2 b2 : string) (m1 m2 : Message)
        (echoed : bool) :
  let E := "AT+CMGL=" ++ (if String.eqb filter "?" then filter else quoted filter) in
  header st = EmptyString ->
  startsWith h1 "+CMGL" = true ->
  startsWith h2 "+CMGL" = true ->
  startsWith b1 "+CMGL" = false ->
  isFinalStatus b1 = false ->
  startsWith b2 "+CMGL" = false ->
  isFinalStatus b2 = false ->
  parsePacket EmptyString h1 (if String.eqb b1 E then EmptyString else b1)
  = Done (Some (MessagePacket m1)) ->
  parsePacket "OK" h2 (if String.eqb b2 E then EmptyString else b2)
  = Done (Some (MessagePacket m2)) ->
  ListMessages st filter
    ((if echoed then [E] else []) ++ [h1; b1; h2; b2; "OK"])
  = Done (Returns [m1; m2])
  /\ Last m1 = false /\ Last m2 = true
  /\ (forall (status h b : string) (m : Message),
      startsWith h "+CMGL" = true ->
      parsePacket status h b = Done (Some (MessagePacket m)) ->
      Last m = negb (String.eqb status EmptyString)).
Proof.
  intros E Hh H1 H2 Sb1 Fb1 Sb2 Fb2 P1 P2.
  assert (L1 : Last m1 = false).
  { rewrite startsWith_HasPrefix in H1. exact (CMGL_Last _ _ _ _ H1 P1). }
  assert (L2 : Last m2 = true).
  { rewrite startsWith_HasPrefix in H2. exact (CMGL_Last _ _ _ _ H2 P2). }
  split; [|repeat split; try assumption;
            intros status h b m Hs Hm; rewrite startsWith_HasPrefix in Hs;
            exact (CMGL_Last _ _ _ _ Hs Hm)].
  pose proof (header_not_echo h1
    (if String.eqb filter "?" then filter else quoted filter) H1) as [E1 N1].
  pose proof (header_not_echo h2
    (if String.eqb filter "?" then filter else quoted filter) H2) as [E2 N2].
  fold E in E1, E2.
  assert (EOK : String.eqb "OK" E = false) by reflexivity.
  unfold ListMessages. rewrite formatCommand_CMGL. cbn [bind].
  cbn [listen]. unfold listen_step at 1.
  rewrite echo_of_CMGL, reQuestion_CMGL, Hh. fold E. cbn [bind].
  assert (R : forall b0,
    listen (mkEngine E "+CMGL" EmptyString b0)
           (map LineIn [h1; b1; h2; b2; "OK"])
    = Done (mkEngine E "+CMGL" EmptyString EmptyString,
            [Log "case line := <-in";
             Log "case line := <-in";
             Log "case line := <-in"; ToRx (Some (MessagePacket m1));
             Log "case line := <-in";
             Log "case line := <-in"; ToRx (Some (MessagePacket m2))])).
  { intros b0. cbn [map listen].
    rewrite (step_first_header E b0 h1 E1 H1). cbn [bind].
    rewrite (step_body_line E h1 b1 Sb1 Fb1 N1). cbn [bind].
    rewrite (step_next_header E h1 _ h2 E2 _ H2 N1 P1). cbn [bind].
    rewrite (step_body_line E h2 b2 Sb2 Fb2 N2). cbn [bind].
    rewrite (step_final E h2 _ "OK" EOK _ eq_refl eq_refl P2). cbn [bind].
    reflexivity. }
  destruct echoed; cbn [app map].
  - change (map LineIn [h1; b1; h2; b2; "OK"]) with
      ([LineIn h1; LineIn b1; LineIn h2; LineIn b2; LineIn "OK"]) in R.
    cbn [listen]. rewrite step_echo. cbn [bind].
    cbn [listen] in R. rewrite R. cbn [bind app rx_of ListMessages_rx collect].
    now rewrite L1, L2.
  - change (map LineIn [h1; b1; h2; b2; "OK"]) with
      ([LineIn h1; LineIn b1; LineIn h2; LineIn b2; LineIn "OK"]) in R.
    rewrite R. cbn [bind app rx_of ListMessages_rx collect].
    now rewrite L1, L2.
Qed.

Lemma ListMessages_two_entries_witness :
  ListMessages (mkEngine EmptyString EmptyString EmptyString EmptyString) "ALL"
    ["AT+CMGL=" ++ quoted "ALL";
     "+CMGL: 1," ++ quoted "REC READ" ++ "," ++ quoted "+123" ++ ",,"
       ++ quoted "14/01/01,12:00:00+00";
     "hello";
     "+CMGL: 2," ++ quoted "REC UNREAD" ++ ",456,,"
       ++ quoted "14/01/02,13:10:00+00";
     "world";
     "OK"]
  = Done (Returns
      [mkMessage 1 "REC READ" "+123" (time.mkTime 2014 1 1 12 0 0 0)
                 "hello" false;
       mkMessage 2 "REC UNREAD" "456" time.zero "world" true]).
Proof.
  refine (proj1 (ListMessages_two_entries
           (mkEngine EmptyString EmptyString EmptyString EmptyString) "ALL"
           ("+CMGL: 1," ++ quoted "REC READ" ++ "," ++ quoted "+123" ++ ",,"
              ++ quoted "14/01/01,12:00:00+00")
           "hello"
           ("+CMGL: 2," ++ quoted "REC UNREAD" ++ ",456,,"
              ++ quoted "14/01/02,13:10:00+00")
           "world"
           (mkMessage 1 "REC READ" "+123" (time.mkTime 2014 1 1 12 0 0 0)
                      "hello" false)
           (mkMessage 2 "REC UNREAD" "456" time.zero "world" true)
           true eq_refl eq_refl eq_refl eq_refl eq_refl eq_refl eq_refl
           eq_refl eq_refl)).
Defined.

(** C2 as stated fails: a body line is told from a terminal status and from
    the next header by its text alone.  When the text of the first message
    is OK, the first entry is flushed as the last one and ListMessages
    returns it alone, without a body; when it starts with +CMGL, it is taken
    as a header, parsed to an UnknownPacket, and ListMessages fails. *)
Lemma ListMessages_body_not_a_body :
  ListMessages (mkEngine EmptyString EmptyString EmptyString EmptyString) "ALL"
    ["+CMGL: 1," ++ quoted "REC READ" ++ "," ++ quoted "+123" ++ ",,"
       ++ quoted "14/01/01,12:00:00+00";
     "OK";
     "+CMGL: 2," ++ quoted "REC UNREAD" ++ "," ++ quoted "+456" ++ ",,"
       ++ quoted "14/01/02,13:10:00+00";
     "world";
     "OK"]
  = Done (Returns
      [mkMessage 1 "REC READ" "+123" (time.mkTime 2014 1 1 12 0 0 0)
                 EmptyString true])
  /\ ListMessages (mkEngine EmptyString EmptyString EmptyString EmptyString)
       "ALL"
       ["+CMGL: 1," ++ quoted "REC READ" ++ "," ++ quoted "+123" ++ ",,"
          ++ quoted "14/01/01,12:00:00+00";
        "+CMGL is a command";
        "+CMGL: 2," ++ quoted "REC UNREAD" ++ "," ++ quoted "+456" ++ ",,"
          ++ quoted "14/01/02,13:10:00+00";
        "world";
        "OK"]
     = Done (Fails "Unexpected error").
Proof. split; reflexivity. Qed.

(** ** The argument lists of a reply *)

Lemma Contains_cons (c : ascii) (s sep : string) :
  strings.Contains (String c s) sep
  = strings.HasPrefix (String c s) sep || strings.Contains s sep.
Proof.
  unfold strings.Contains. cbn [strings.Index].
  destruct (strings.HasPrefix (String c s) sep); [reflexivity|].
  now destruct (strings.Index s sep).
Qed.

Lemma span_length (p : ascii -> bool) (s a r : string) :
  regexp.span p s = (a, r) ->
  String.length s = String.length a + String.length r.
Proof.
  revert a r; induction s as [|c s IH]; intros a r; cbn [regexp.span].
  - now intros [= <- <-].
  - destruct (p c).
    + destruct (regexp.span p s) as [a' r'] eqn:E. intros [= <- <-].
      cbn [String.length]. now rewrite (IH a' r' eq_refl).
    + now intros [= <- <-].
Qed.

Lemma RegexQuote_at_length (s m r : string) :
  regexp.RegexQuote_at s = (m, r) ->
  String.length s = String.length m + String.length r.
Proof.
  unfold regexp.RegexQuote_at. destruct s as [|c t].
  - now intros [= <- <-].
  - destruct (Ascii.eqb c dquote); [|apply span_length].
    destruct (regexp.span regexp.notquote t) as [a [|x r']] eqn:E;
      [apply span_length|].
    intros [= <- <-]. apply span_length in E.
    cbn [String.length] in *. rewrite length_append, E.
    change (String.length qq) with 1. lia.
Qed.

(** Fuel beyond the length of the string changes nothing: FindAllString is
    the whole loop. *)
Lemma allMatches_fuel (n : nat) :
  forall (m : nat) (s : string) (abut : bool),
    String.length s < n -> String.length s < m ->
    regexp.allMatches n s abut = regexp.allMatches m s abut.
Proof.
  induction n as [|n IH]; intros m s abut Hn Hm; [lia|].
  destruct m as [|m]; [lia|].
  cbn [regexp.allMatches].
  destruct (regexp.RegexQuote_at s) as [t r] eqn:E.
  apply RegexQuote_at_length in E.
  destruct t as [|c t].
  - destruct s as [|x s]; [reflexivity|].
    cbn [String.length] in *. f_equal. apply IH; lia.
  - cbn [String.length] in *. f_equal. apply IH; lia.
Qed.

Lemma span_notquote (a k : string) :
  strings.Contains a qq = false ->
  regexp.span regexp.notquote (a ++ String dquote k) = (a, String dquote k).
Proof.
  induction a as [|c a IH]; intros H; [reflexivity|].
  rewrite Contains_cons in H. apply orb_false_iff in H as [Hc Ha].
  cbn [strings.HasPrefix qq] in Hc. rewrite andb_true_r in Hc.
  cbn [append regexp.span]. unfold regexp.notquote at 1.
  rewrite Ascii.eqb_sym, Hc. cbn [negb]. now rewrite (IH Ha).
Qed.

Lemma RegexQuote_at_quoted (a k : string) :
  strings.Contains a qq = false ->
  regexp.RegexQuote_at (quoted a ++ k) = (quoted a, k).
Proof.
  intros H. unfold quoted, qq.
  rewrite !append_assoc. cbn [append regexp.RegexQuote_at].
  rewrite Ascii.eqb_refl. now rewrite (span_notquote a k H).
Qed.

Lemma allMatches_S (n : nat) (s : string) (abut : bool) :
  regexp.allMatches (S n) s abut
  = let (m, r) := regexp.RegexQuote_at s in
    match m with
    | EmptyString =>
        let found := if abut then [] else [EmptyString] in
        match s with
        | EmptyString => found
        | String _ s' => (found ++ regexp.allMatches n s' false)%list
        end
    | String _ _ => m :: regexp.allMatches n r true
    end.
Proof. reflexivity. Qed.

Lemma FindAll_quoted (a k : string) (abut : bool) :
  strings.Contains a qq = false ->
  regexp.allMatches (S (String.length (quoted a ++ k))) (quoted a ++ k) abut
  = quoted a :: regexp.allMatches (S (String.length k)) k true.
Proof.
  intros H. etransitivity; [apply allMatches_S|].
  rewrite (RegexQuote_at_quoted a k H).
  unfold quoted at 1, qq at 1. cbn [append]. f_equal.
  apply allMatches_fuel; [|lia].
  rewrite length_append. unfold quoted, qq. cbn [append String.length]. lia.
Qed.

Lemma FindAll_comma (k : string) :
  regexp.allMatches (S (String.length ("," ++ k))) ("," ++ k) true
  = regexp.allMatches (S (String.length k)) k false.
Proof. reflexivity. Qed.

Lemma Contains_append_qq (r : string) : strings.Contains (r ++ qq) qq = true.
Proof.
  induction r as [|c r IH]; [reflexivity|].
  cbn [append]. rewrite Contains_cons, IH. apply orb_true_r.
Qed.

Lemma unquote_quoted (a : string) :
  strings.Contains a qq = false -> unquote (quoted a) = VString a.
Proof.
  intros H. unfold unquote, quoted.
  rewrite startsWith_HasPrefix, HasPrefix_append, Trim_quoted; [reflexivity| |].
  - intros r ->. discriminate H.
  - intros r ->. now rewrite Contains_append_qq in H.
Qed.


(** ** The groups of a +CPMS query reply *)









(** White space around the argument text. *)








Lemma parsePacket_CPMS_args (status rest body : string) :
  parsePacket status ("+CPMS:" ++ rest) body
  = let uargs := strings.TrimSpace rest in
    let args := unquotes uargs in
    let s := uargs in
    if strings.HasPrefix s "(" then
      let s := strings.TrimPrefix s "(" in
      let s := strings.TrimSuffix s ")" in
      let areas := strings.SplitN s "),(" 3 in
      r0 <- at_index areas 0 ;;
      r1 <- at_index areas 1 ;;
      r2 <- at_index areas 2 ;;
      Done (Some (StorageAreas (stringsUnquotes r0) (stringsUnquotes r1)
                               (stringsUnquotes r2)))
    else
      match ints args with
      | [i0; i1; i2; i3; i4; i5] => Done (Some (StorageInfo i0 i1 i2 i3 i4 i5))
      | [i0; i1; i2; i3] => Done (Some (StorageInfo i0 i1 i2 i3 0 0))
      | _ => Done (Some (UnknownPacket "+CPMS" args))
      end.
Proof. reflexivity. Qed.




(** * Further properties *)

(** ** What unquote returns *)

Lemma Atoi_is_int (s : string) (n : Z) :
  strconv.Atoi s = Some n -> strconv.is_int n.
Proof.
  unfold strconv.Atoi. destruct s as [|c s]; [discriminate|].
  assert (R : forall v, strconv.in_range v = true -> strconv.is_int v).
  { intros v H. unfold strconv.in_range in H. apply andb_true_iff in H as [A B].
    apply Z.leb_le in A, B. now split. }
  destruct (Ascii.eqb c "-"); [|destruct (Ascii.eqb c "+")];
    match goal with
    | |- context [strconv.digits ?x] => destruct (strconv.digits x) as [v|]
    end; try discriminate;
    match goal with
    | |- context [strconv.in_range ?x] => destruct (strconv.in_range x) eqn:E
    end; try discriminate; intros [= <-]; now apply R.
Qed.

Lemma allMatches_nonempty (n : nat) (s : string) :
  regexp.allMatches (S n) s false <> [].
Proof.
  rewrite allMatches_S.
  destruct (regexp.RegexQuote_at s) as [[|c m] r]; [|discriminate].
  destruct s; discriminate.
Qed.

(** X1: the argument list of a reply is never empty, and each of its
    values is a string or an int of 64 bits; so args[0] is never out of range
    and an argument is never of a third type. *)
Theorem unquotes_values (s : string) :
  unquotes s <> []
  /\ Forall (fun v => (exists t, v = VString t)
                      \/ (exists n, v = VInt n /\ strconv.is_int n))
            (unquotes s).
Proof.
  split.
  - unfold unquotes, regexp.RegexQuote_FindAllString.
    pose proof (allMatches_nonempty (String.length s) s) as H.
    destruct (regexp.allMatches _ s false); [congruence|discriminate].
  - unfold unquotes. apply Forall_forall. intros v Hv.
    apply in_map_iff in Hv as (t & <- & _). unfold unquote.
    destruct (startsWith t qq); [left; eauto|].
    destruct (strconv.Atoi t) as [n|] eqn:E; [right|left; eauto].
    exists n. split; [reflexivity|]. now apply Atoi_is_int in E.
Qed.

Lemma digits_Itoa_nonneg (n : Z) :
  (0 <= n)%Z -> strconv.digits (strconv.Itoa n) = Some n.
Proof.
  intros H. destruct n as [|p|p]; [reflexivity| |lia].
  unfold strconv.Itoa. cbn [Z.to_int NilEmpty.string_of_int].
  rewrite digits_string_of_uint by apply Unsigned.to_uint_nonnil.
  now rewrite Z_of_uint_to_uint.
Qed.

(** X2: an unquoted number with a plus sign in front, as a telephone
    number in international form, is read as the int without the sign. *)
Theorem unquote_plus_sign (n : Z) :
  (0 <= n <= strconv.maxInt)%Z ->
  unquote ("+" ++ strconv.Itoa n) = VInt n.
Proof.
  intros H. unfold unquote.
  assert (S0 : startsWith ("+" ++ strconv.Itoa n) qq = false)
    by (rewrite startsWith_HasPrefix; reflexivity).
  rewrite S0. unfold strconv.Atoi. cbn [append Ascii.eqb Bool.eqb].
  rewrite digits_Itoa_nonneg by lia.
  assert (R : strconv.in_range n = true).
  { unfold strconv.in_range, strconv.minInt, strconv.maxInt in *.
    apply andb_true_iff; split; apply Z.leb_le; lia. }
  now rewrite R.
Qed.

Lemma unquote_plus_sign_witness :
  unquote ("+" ++ strconv.Itoa 15551234) = VInt 15551234.
Proof.
  apply (unquote_plus_sign 15551234).
  unfold strconv.maxInt. lia.
Defined.

(** X3: a decimal number that does not fit an int of 64 bits is not
    an error and not a truncated int: unquote gives it back as a string. *)
Theorem unquote_overflow (n : Z) :
  ~ strconv.is_int n ->
  unquote (strconv.Itoa n) = VString (strconv.Itoa n).
Proof.
  intros H. unfold unquote. rewrite Itoa_not_quoted.
  assert (R : strconv.in_range n = false).
  { unfold strconv.in_range, strconv.is_int in *.
    apply andb_false_iff.
    destruct (Z.leb_spec strconv.minInt n); [right|now left].
    apply Z.leb_gt. lia. }
  assert (A : strconv.Atoi (strconv.Itoa n) = None).
  { unfold strconv.Itoa.
    destruct n as [|p|p]; [discriminate R| |]; simpl.
    - destruct (string_of_uint_head (Pos.to_uint p) (Unsigned.to_uint_nonnil p))
        as (c & r & E & Hm & Hp & _).
      unfold strconv.Atoi. rewrite E, Hm, Hp, <- E.
      rewrite digits_string_of_uint by apply Unsigned.to_uint_nonnil.
      rewrite Z_of_uint_to_uint. now rewrite R.
    - unfold strconv.Atoi; simpl.
      rewrite digits_string_of_uint by apply Unsigned.to_uint_nonnil.
      rewrite Z_of_uint_to_uint.
      change (- Z.pos p)%Z with (Z.neg p). now rewrite R. }
  now rewrite A.
Qed.

Lemma unquote_overflow_witness :
  unquote (strconv.Itoa 89014103211118510720)
  = VString (strconv.Itoa 89014103211118510720).
Proof.
  apply (unquote_overflow 89014103211118510720).
  unfold strconv.is_int, strconv.maxInt. lia.
Defined.

(** ** Argument lists *)

Lemma allchars_append (p : ascii -> bool) (a b : string) :
  allchars p (a ++ b) = allchars p a && allchars p b.
Proof.
  induction a as [|c a IH]; [reflexivity|].
  cbn [append allchars]. now rewrite IH, andb_assoc.
Qed.

Lemma allchars_impl (p q : ascii -> bool) (s : string) :
  (forall c, p c = true -> q c = true) ->
  allchars p s = true -> allchars q s = true.
Proof.
  intros Hpq. induction s as [|c s IH]; [reflexivity|].
  cbn [allchars]. intros H. apply andb_true_iff in H as [Hc Hs].
  now rewrite (Hpq c Hc), (IH Hs).
Qed.

Lemma allchars_string_of_uint (d : Decimal.uint) :
  allchars time.isDigit (NilEmpty.string_of_uint d) = true.
Proof. induction d; cbn [NilEmpty.string_of_uint allchars]; auto. Qed.

Lemma allchars_Itoa (n : Z) : allchars isnumc (strconv.Itoa n) = true.
Proof.
  assert (D : forall d, allchars isnumc (NilEmpty.string_of_uint d) = true).
  { intros d. apply (allchars_impl time.isDigit); [|apply allchars_string_of_uint].
    intros c Hc. unfold isnumc. rewrite Hc. apply orb_true_r. }
  unfold strconv.Itoa. destruct n as [|p|p]; [reflexivity|apply D|].
  cbn [Z.to_int NilEmpty.string_of_int allchars]. now rewrite D.
Qed.

Lemma Itoa_nonempty (n : Z) : exists c r, strconv.Itoa n = String c r.
Proof.
  unfold strconv.Itoa. destruct n as [|p|p]; cbn; eauto.
  destruct (string_of_uint_head (Pos.to_uint p) (Unsigned.to_uint_nonnil p))
    as (c & r & E & _). eauto.
Qed.

Lemma isnumc_cases (c : ascii) :
  isnumc c = true ->
  Ascii.eqb c "," = false /\ Ascii.eqb c dquote = false
  /\ Ascii.eqb "(" c = false /\ graphic c = true.
Proof.
  destruct c as [[] [] [] [] [] [] [] []]; intros H;
    try discriminate H; repeat split.
Qed.

Lemma isnumlistc_graphic (c : ascii) : isnumlistc c = true -> graphic c = true.
Proof.
  unfold isnumlistc. destruct (Ascii.eqb_spec c ",") as [->|_]; [reflexivity|].
  intros H. now apply isnumc_cases.
Qed.

Lemma span_notcomma_stop (t k : string) :
  allchars regexp.notcomma t = true ->
  regexp.span regexp.notcomma (t ++ String "," k) = (t, String "," k).
Proof.
  induction t as [|c t IH]; [reflexivity|].
  cbn [allchars append regexp.span]. intros H.
  apply andb_true_iff in H as [Hc Ht]. now rewrite Hc, (IH Ht).
Qed.

Lemma span_notcomma_all (t : string) :
  allchars regexp.notcomma t = true ->
  regexp.span regexp.notcomma t = (t, EmptyString).
Proof.
  induction t as [|c t IH]; [reflexivity|].
  cbn [allchars regexp.span]. intros H.
  apply andb_true_iff in H as [Hc Ht]. now rewrite Hc, (IH Ht).
Qed.

(** A text without comma that does not begin with a double quote. *)
Lemma istoken_plain (c : ascii) (t : string) :
  Ascii.eqb c dquote = false ->
  allchars regexp.notcomma (String c t) = true ->
  istoken (String c t).
Proof.
  intros Hq Hn. split.
  - intros k abut. etransitivity; [apply allMatches_S|].
    change ("," ++ k) with (String "," k).
    assert (R : regexp.RegexQuote_at (String c t ++ String "," k)
                = (String c t, String "," k)).
    { cbn [append regexp.RegexQuote_at]. rewrite Hq.
      change (String c (t ++ String "," k)) with (String c t ++ String "," k).
      now apply span_notcomma_stop. }
    rewrite R. f_equal.
    rewrite (allMatches_fuel _ (S (String.length ("," ++ k))) (String "," k) true).
    + apply FindAll_comma.
    + rewrite length_append. cbn [String.length]. lia.
    + cbn [append String.length]. lia.
  - intros abut. etransitivity; [apply allMatches_S|].
    assert (R : regexp.RegexQuote_at (String c t) = (String c t, EmptyString)).
    { cbn [regexp.RegexQuote_at]. rewrite Hq. now apply span_notcomma_all. }
    rewrite R. reflexivity.
Qed.

Lemma istoken_quoted (a : string) :
  strings.Contains a qq = false -> istoken (quoted a).
Proof.
  intros H. split.
  - intros k abut. rewrite (FindAll_quoted a _ abut H). reflexivity.
  - intros abut. pose proof (FindAll_quoted a EmptyString abut H) as F.
    rewrite append_nil_r in F. rewrite F. reflexivity.
Qed.

Lemma istoken_Itoa (n : Z) : istoken (strconv.Itoa n).
Proof.
  pose proof (allchars_Itoa n) as A.
  destruct (Itoa_nonempty n) as (c & r & E). rewrite E in *.
  apply istoken_plain.
  - cbn [allchars] in A. apply andb_true_iff in A as [Hc _].
    now apply isnumc_cases in Hc.
  - apply (allchars_impl isnumc); [|exact A].
    intros x Hx. unfold regexp.notcomma.
    apply isnumc_cases in Hx as (-> & _). reflexivity.
Qed.

Lemma allMatches_Join (ts : list string) (abut : bool) :
  Forall istoken ts -> ts <> [] ->
  regexp.allMatches (S (String.length (strings.Join ts ",")))
                    (strings.Join ts ",") abut
  = ts.
Proof.
  revert abut.
  induction ts as [|t ts IH]; intros abut Hf Hn; [congruence|].
  inversion Hf as [|? ? [H1 H2] Hts]; subst.
  destruct ts as [|u ts].
  - cbn [strings.Join]. apply H2.
  - change (strings.Join (t :: u :: ts) ",")
      with (t ++ "," ++ strings.Join (u :: ts) ",").
    rewrite H1. f_equal. now apply IH.
Qed.

Lemma FindAll_Join (ts : list string) :
  Forall istoken ts -> ts <> [] ->
  regexp.RegexQuote_FindAllString (strings.Join ts ",") = ts.
Proof. apply allMatches_Join. Qed.

Lemma quote_okarg (v : value) :
  okarg v -> exists t, quote v = Done t /\ istoken t /\ unquote t = norm v.
Proof.
  destruct v as [s|n|n|T]; cbn [okarg]; intros H; [| | |destruct H].
  - cbn [quote]. destruct (String.eqb_spec s "?") as [->|_].
    + exists "?". split; [reflexivity|]. split; [|reflexivity].
      now apply istoken_plain.
    + exists (quoted s). split; [reflexivity|]. split.
      * now apply istoken_quoted.
      * now apply unquote_quoted.
  - exists (strconv.Itoa n). split; [reflexivity|]. split; [apply istoken_Itoa|].
    unfold unquote. now rewrite Itoa_not_quoted, Atoi_Itoa.
  - exists (strconv.Itoa n). split; [reflexivity|]. split; [apply istoken_Itoa|].
    unfold unquote. now rewrite Itoa_not_quoted, Atoi_Itoa.
Qed.

Lemma quote_all_okarg (args : list value) :
  Forall okarg args ->
  exists ts, quote_all args = Done ts /\ Forall istoken ts
             /\ map unquote ts = map norm args
             /\ List.length ts = List.length args.
Proof.
  induction 1 as [|v args Hv _ (ts & E & Ht & Hu & Hl)].
  - exists []. split; [reflexivity|]. split; [constructor|]. now split.
  - destruct (quote_okarg v Hv) as (t & Et & Tt & Ut).
    exists (t :: ts). cbn [quote_all]. rewrite Et, E. cbn [bind].
    split; [reflexivity|]. split; [now constructor|]. split.
    + cbn [map]. now rewrite Ut, Hu.
    + cbn [List.length]. now rewrite Hl.
Qed.

(** X4: unquotes undoes quotes on every list of at least one argument
    whose strings hold no double quote (commas are allowed) and whose
    integers are ints; an int64 comes back as an int.  For the empty list,
    quotes gives the empty text, which unquotes reads as one empty string. *)
Theorem unquotes_quotes (args : list value) :
  args <> [] ->
  Forall okarg args ->
  (exists line, quotes args = Done line /\ unquotes line = map norm args)
  /\ quotes [] = Done EmptyString
  /\ unquotes EmptyString = [VString EmptyString].
Proof.
  intros Hn Hf. split; [|split; reflexivity].
  destruct (quote_all_okarg args Hf) as (ts & E & Ht & Hu & Hl).
  exists (strings.Join ts ","). unfold quotes. rewrite E. cbn [bind].
  split; [reflexivity|]. unfold unquotes.
  rewrite FindAll_Join; [exact Hu|exact Ht|].
  intros ->. destruct args; [congruence|discriminate Hl].
Qed.

Lemma unquotes_quotes_witness :
  exists line,
    quotes [VString "+1555,12"; VInt (-3); VString "?"; VInt64 145] = Done line
    /\ unquotes line = [VString "+1555,12"; VInt (-3); VString "?"; VInt 145].
Proof.
  refine (proj1 (unquotes_quotes
            [VString "+1555,12"; VInt (-3); VString "?"; VInt64 145] _ _)).
  - discriminate.
  - repeat constructor; cbn [okarg]; unfold strconv.is_int, strconv.minInt,
      strconv.maxInt; lia.
Defined.

(** ** White space around argument texts *)

Lemma graphic_bounds (a : ascii) :
  graphic a = true -> 33 <= code a <= 126.
Proof.
  unfold graphic. intros H. apply andb_true_iff in H as [A B].
  apply Nat.leb_le in A, B. lia.
Qed.

Lemma graphic_first (a : ascii) :
  graphic a = true ->
  strings.isSpace1 a = false
  /\ (forall b, strings.isSpace2 a b = false)
  /\ (forall b c, strings.isSpace3 a b c = false).
Proof.
  intros H. apply graphic_bounds in H.
  assert (E : forall k, (k <= 32 \/ 127 <= k) -> (code a =? k)%nat = false)
    by (intros k Hk; apply Nat.eqb_neq; lia).
  assert (L : (code a <=? 13)%nat = false) by (apply Nat.leb_gt; lia).
  unfold strings.isSpace1, strings.isSpace2, strings.isSpace3.
  rewrite L, !E by lia.
  repeat split; intros; now rewrite ?andb_false_r.
Qed.

Lemma graphic_last (z : ascii) :
  graphic z = true ->
  strings.isSpace1 z = false
  /\ (forall a, strings.isSpace2 a z = false)
  /\ (forall a b, strings.isSpace3 a b z = false).
Proof.
  intros H. apply graphic_bounds in H.
  assert (E : forall k, (k <= 32 \/ 127 <= k) -> (code z =? k)%nat = false)
    by (intros k Hk; apply Nat.eqb_neq; lia).
  assert (L : (code z <=? 13)%nat = false) by (apply Nat.leb_gt; lia).
  assert (G : (128 <=? code z)%nat = false) by (apply Nat.leb_gt; lia).
  unfold strings.isSpace1, strings.isSpace2, strings.isSpace3.
  rewrite L, G, !E by lia. cbn [andb orb].
  repeat split; intros; now rewrite ?andb_false_r.
Qed.

Lemma trimLeftSpace_graphic (a : ascii) (s : string) :
  graphic a = true ->
  strings.trimLeftSpace (String a s) = String a s.
Proof.
  intros H. destruct (graphic_first a H) as (H1 & H2 & H3).
  cbn [strings.trimLeftSpace]. rewrite H1.
  destruct s as [|b [|c s]]; [reflexivity| |].
  - now rewrite H2.
  - now rewrite H2, H3.
Qed.

Lemma isSpaceRune_graphic (t : string) (z : ascii) :
  graphic z = true -> strings.isSpaceRune (t ++ String z EmptyString) = false.
Proof.
  intros H. destruct (graphic_last z H) as (H1 & H2 & H3).
  destruct t as [|a [|b [|c t]]]; cbn [append strings.isSpaceRune]; auto.
  now destruct t.
Qed.

Lemma trimRightSpace_graphic (s : string) (z : ascii) :
  graphic z = true ->
  strings.trimRightSpace (s ++ String z EmptyString) = s ++ String z EmptyString.
Proof.
  intros H. induction s as [|c s IH].
  - pose proof (isSpaceRune_graphic EmptyString z H) as R.
    cbn [append] in *. cbn [strings.trimRightSpace]. now rewrite R.
  - cbn [append strings.trimRightSpace]. rewrite IH.
    change (String c (s ++ String z EmptyString))
      with (String c s ++ String z EmptyString).
    now rewrite isSpaceRune_graphic.
Qed.

Lemma last_char (p : ascii -> bool) (c : ascii) (s : string) :
  allchars p (String c s) = true ->
  exists x z, String c s = x ++ String z EmptyString /\ p z = true.
Proof.
  revert c; induction s as [|d s IH]; intros c H.
  - exists EmptyString, c. cbn [allchars] in H.
    apply andb_true_iff in H as [Hc _]. now split.
  - cbn [allchars] in H. apply andb_true_iff in H as [Hc Hs].
    destruct (IH d Hs) as (x & z & E & Hz).
    exists (String c x), z. cbn [append]. now rewrite E.
Qed.

(** White space is trimmed only: a text that begins and ends with a
    printable character is left as it is. *)
Lemma TrimSpace_ends (a : ascii) (s : string) (z : ascii) :
  graphic a = true -> graphic z = true ->
  strings.TrimSpace (String a (s ++ String z EmptyString))
  = String a (s ++ String z EmptyString).
Proof.
  intros Ha Hz. unfold strings.TrimSpace.
  rewrite (trimLeftSpace_graphic a _ Ha).
  change (String a (s ++ String z EmptyString))
    with (String a s ++ String z EmptyString).
  now apply trimRightSpace_graphic.
Qed.

Lemma TrimSpace_graphic (s : string) :
  allchars graphic s = true -> strings.TrimSpace s = s.
Proof.
  destruct s as [|a s]; [reflexivity|]. intros H.
  unfold strings.TrimSpace. rewrite trimLeftSpace_graphic.
  - destruct (last_char graphic a s H) as (x & z & -> & Hz).
    now apply trimRightSpace_graphic.
  - cbn [allchars] in H. now apply andb_true_iff in H as [Ha _].
Qed.

Lemma TrimSpace_space (s : string) :
  strings.TrimSpace (String " " s) = strings.TrimSpace s.
Proof. reflexivity. Qed.

(** ** The +CPMS set reply and the +CMTI notification *)

Lemma allchars_Join_Itoa (ns : list Z) :
  allchars isnumlistc (strings.Join (map strconv.Itoa ns) ",") = true.
Proof.
  assert (I : forall n, allchars isnumlistc (strconv.Itoa n) = true).
  { intros n. apply (allchars_impl isnumc); [|apply allchars_Itoa].
    intros c Hc. unfold isnumlistc. rewrite Hc. apply orb_true_r. }
  induction ns as [|n ns IH]; [reflexivity|].
  destruct ns as [|m ns]; [apply I|].
  change (strings.Join (map strconv.Itoa (n :: m :: ns)) ",")
    with (strconv.Itoa n ++ "," ++ strings.Join (map strconv.Itoa (m :: ns)) ",").
  rewrite !allchars_append, I, IH. reflexivity.
Qed.

Lemma unquotes_Join_Itoa (ns : list Z) :
  ns <> [] -> Forall strconv.is_int ns ->
  unquotes (strings.Join (map strconv.Itoa ns) ",") = map VInt ns.
Proof.
  intros Hn Hf. unfold unquotes. rewrite FindAll_Join.
  - rewrite map_map. apply map_ext_in. intros n Hin.
    rewrite Forall_forall in Hf. unfold unquote.
    now rewrite Itoa_not_quoted, (Atoi_Itoa n (Hf n Hin)).
  - apply Forall_forall. intros t Ht.
    apply in_map_iff in Ht as (n & <- & _). apply istoken_Itoa.
  - destruct ns; [congruence|discriminate].
Qed.

Lemma ints_VInt (ns : list Z) : ints (map VInt ns) = ns.
Proof. induction ns as [|n ns IH]; [reflexivity|]. cbn. now rewrite IH. Qed.

Lemma Join_Itoa_head (ns : list Z) :
  ns <> [] ->
  strings.HasPrefix (strings.Join (map strconv.Itoa ns) ",") "(" = false.
Proof.
  intros Hn. destruct ns as [|n ns]; [congruence|].
  pose proof (allchars_Itoa n) as A.
  destruct (Itoa_nonempty n) as (c & r & E).
  assert (H : exists k, strings.Join (map strconv.Itoa (n :: ns)) "," = String c k).
  { destruct ns as [|m ns]; cbn [map strings.Join]; rewrite E; cbn [append]; eauto. }
  destruct H as [k ->]. rewrite E in A. cbn [allchars] in A.
  apply andb_true_iff in A as [Hc _]. apply isnumc_cases in Hc as (_ & _ & Hp & _).
  cbn [strings.HasPrefix]. now rewrite Hp.
Qed.

(** X5: the reply to a +CPMS set command, integers between commas, is
    parsed to StorageInfo with the six integers in order, or with four
    integers followed by two zeros; with any other number of integers the
    reply is an UnknownPacket that carries them. *)
Theorem parsePacket_CPMS_set (status body : string) (ns : list Z) :
  ns <> [] ->
  Forall strconv.is_int ns ->
  parsePacket status ("+CPMS: " ++ strings.Join (map strconv.Itoa ns) ",") body
  = Done (Some match ns with
               | [a; b; c; d; e; f] => StorageInfo a b c d e f
               | [a; b; c; d] => StorageInfo a b c d 0 0
               | _ => UnknownPacket "+CPMS" (map VInt ns)
               end).
Proof.
  intros Hn Hf.
  set (J := strings.Join (map strconv.Itoa ns) ",").
  change ("+CPMS: " ++ J) with ("+CPMS:" ++ String " " J).
  rewrite parsePacket_CPMS_args. cbv zeta.
  rewrite TrimSpace_space, TrimSpace_graphic.
  - unfold J. rewrite (Join_Itoa_head ns Hn), (unquotes_Join_Itoa ns Hn Hf), ints_VInt.
    destruct ns as [|a [|b [|c [|d [|e [|f [|g ns]]]]]]]; reflexivity.
  - apply (allchars_impl isnumlistc); [apply isnumlistc_graphic|].
    apply allchars_Join_Itoa.
Qed.

Lemma parsePacket_CPMS_set_witness :
  parsePacket "OK" ("+CPMS: " ++ "0,100,0,100,0,100") EmptyString
  = Done (Some (StorageInfo 0 100 0 100 0 100))
  /\ parsePacket "OK" ("+CPMS: " ++ "3,20,3,20") EmptyString
     = Done (Some (StorageInfo 3 20 3 20 0 0)).
Proof.
  assert (R : forall ns, Forall (fun n => 0 <= n <= 100)%Z ns -> Forall strconv.is_int ns).
  { intros ns. apply Forall_impl. intros n H.
    unfold strconv.is_int, strconv.minInt, strconv.maxInt. lia. }
  split.
  - apply (parsePacket_CPMS_set "OK" EmptyString [0; 100; 0; 100; 0; 100]%Z).
    + discriminate.
    + apply R. repeat constructor; lia.
  - apply (parsePacket_CPMS_set "OK" EmptyString [3; 20; 3; 20]%Z).
    + discriminate.
    + apply R. repeat constructor; lia.
Defined.

Lemma parsePacket_CMTI_args (status rest body : string) :
  parsePacket status ("+CMTI:" ++ rest) body
  = let args := unquotes (strings.TrimSpace rest) in
    a0 <- at_index args 0 ;; s0 <- asString a0 ;;
    a1 <- at_index args 1 ;; i1 <- asInt a1 ;;
    Done (Some (MessageNotification s0 i1)).
Proof. reflexivity. Qed.

(** X6: the notification of a new message, +CMTI with a quoted storage
    area and an index, is parsed to a MessageNotification of that area and
    index, for every area without a double quote and every int. *)
Theorem parsePacket_CMTI (status body area : string) (n : Z) :
  strings.Contains area qq = false ->
  strconv.is_int n ->
  parsePacket status ("+CMTI: " ++ quoted area ++ "," ++ strconv.Itoa n) body
  = Done (Some (MessageNotification area n)).
Proof.
  intros Ha Hn.
  change ("+CMTI: " ++ quoted area ++ "," ++ strconv.Itoa n)
    with ("+CMTI:" ++ String " " (quoted area ++ "," ++ strconv.Itoa n)).
  rewrite parsePacket_CMTI_args. cbv zeta. rewrite TrimSpace_space.
  assert (T : strings.TrimSpace (quoted area ++ "," ++ strconv.Itoa n)
              = quoted area ++ "," ++ strconv.Itoa n).
  { pose proof (allchars_Itoa n) as A.
    destruct (Itoa_nonempty n) as (c & r & E). rewrite E in A.
    destruct (last_char isnumc c r A) as (x & z & Ex & Hz).
    rewrite E, Ex.
    assert (Q : quoted area ++ "," ++ x ++ String z EmptyString
                = String dquote ((area ++ qq ++ "," ++ x) ++ String z EmptyString)).
    { unfold quoted, qq. repeat (cbn [append]; rewrite ?append_assoc).
      reflexivity. }
    rewrite Q. apply TrimSpace_ends; [reflexivity|].
    now apply isnumc_cases in Hz. }
  rewrite T.
  change (quoted area ++ "," ++ strconv.Itoa n)
    with (strings.Join [quoted area; strconv.Itoa n] ",").
  unfold unquotes. rewrite FindAll_Join.
  - cbn [map at_index nth_error bind].
    rewrite (unquote_quoted area Ha). cbn [asString bind].
    unfold unquote. rewrite Itoa_not_quoted, (Atoi_Itoa n Hn). reflexivity.
  - constructor; [now apply istoken_quoted|].
    constructor; [apply istoken_Itoa|constructor].
  - discriminate.
Qed.

Lemma parsePacket_CMTI_witness :
  parsePacket "OK" ("+CMTI: " ++ quoted "SM" ++ "," ++ strconv.Itoa 4) EmptyString
  = Done (Some (MessageNotification "SM" 4)).
Proof.
  apply (parsePacket_CMTI "OK" EmptyString "SM" 4); [reflexivity|].
  unfold strconv.is_int, strconv.minInt, strconv.maxInt. lia.
Defined.

(** ** Invariants of the engine *)

Lemma listen_step_channels (st st' : engine) (ev : event) (acts : list action) :
  listen_step st ev = Done (st', acts) ->
  port_of acts = transmitted [ev]
  /\ List.length (rx_of acts) <= incoming [ev]
  /\ echo st' = match ev with
                | Transmit line => strings.TrimRight line CRLF
                | LineIn _ => echo st
                end.
Proof.
  unfold listen_step. destruct ev as [line|line].
  - repeat match goal with
           | |- context [if ?b then _ else _] => destruct b
           | |- context [bind ?r _] => destruct r as [[?|]|]; cbn [bind]
           end;
      intros [= <- <-] || discriminate; cbn; repeat split; lia.
  - intros [= <- <-]. cbn. repeat split; lia.
Qed.

Lemma port_of_app (a b : list action) :
  port_of (a ++ b) = (port_of a ++ port_of b)%list.
Proof.
  induction a as [|x a IH]; [reflexivity|].
  destruct x; simpl; now rewrite IH.
Qed.

(** X7: in every run the engine writes to the port exactly the lines
    handed to it for transmission, unchanged and in order; it sends at most
    one packet on the response channel for each line that comes in and none
    for a transmission; and it sends nothing on the out-of-band channel. *)
Theorem listen_channels (evs : list event) :
  forall (st st' : engine) (acts : list action),
    listen st evs = Done (st', acts) ->
    port_of acts = transmitted evs
    /\ List.length (rx_of acts) <= incoming evs
    /\ oob_of acts = [].
Proof.
  induction evs as [|ev evs IH]; intros st st' acts; cbn [listen].
  - intros [= <- <-]. repeat split. reflexivity.
  - destruct (listen_step st ev) as [[st1 acts1]|] eqn:E1; [|discriminate].
    cbn [bind].
    destruct (listen st1 evs) as [[st2 acts2]|] eqn:E2; [|discriminate].
    cbn [bind]. intros [= <- <-].
    destruct (listen_step_channels _ _ _ _ E1) as (P1 & R1 & _).
    destruct (IH _ _ _ E2) as (P2 & R2 & O2).
    rewrite port_of_app, rx_of_app, oob_of_app, length_app, P1, P2, O2.
    rewrite (listen_step_no_oob _ _ _ _ E1).
    repeat split.
    + now destruct ev.
    + destruct ev; cbn [incoming] in *; lia.
Qed.

Lemma listen_channels_witness :
  port_of [Log "**listen**"; PortWrite ("ATZ" ++ CRLF);
           Log "case line := <-in"; ToRx (Some OK)]
  = transmitted [Transmit ("ATZ" ++ CRLF); LineIn "OK"]
  /\ List.length (rx_of [Log "**listen**"; PortWrite ("ATZ" ++ CRLF);
                         Log "case line := <-in"; ToRx (Some OK)])
     <= incoming [Transmit ("ATZ" ++ CRLF); LineIn "OK"]
  /\ oob_of [Log "**listen**"; PortWrite ("ATZ" ++ CRLF);
             Log "case line := <-in"; ToRx (Some OK)] = [].
Proof.
  exact (listen_channels [Transmit ("ATZ" ++ CRLF); LineIn "OK"]
           (mkEngine EmptyString EmptyString EmptyString EmptyString)
           (mkEngine "ATZ" EmptyString EmptyString EmptyString)
           _ eq_refl).
Defined.

(** ** One reply *)

Lemma listen_app (a b : list event) :
  forall st : engine,
    listen st (a ++ b)
    = '(st1, acts1) <- listen st a ;;
      '(st2, acts2) <- listen st1 b ;;
      Done (st2, (acts1 ++ acts2)%list).
Proof.
  induction a as [|ev a IH]; intros st; cbn [app listen bind].
  - destruct (listen st b) as [[st2 acts2]|]; reflexivity.
  - destruct (listen_step st ev) as [[st1 acts1]|]; [|reflexivity].
    cbn [bind]. rewrite IH.
    destruct (listen st1 a) as [[st2 acts2]|]; [|reflexivity].
    cbn [bind].
    destruct (listen st2 b) as [[st3 acts3]|]; [|reflexivity].
    cbn [bind]. now rewrite app_assoc.
Qed.

Lemma headerOf_inv (E L line : string) :
  headerOf E L line = true ->
  String.eqb line E = false
  /\ nonempty L && startsWith line L = true
  /\ nonempty line = true.
Proof.
  unfold headerOf. intros H. apply andb_true_iff in H as [H1 H2].
  apply negb_true_iff in H1. repeat split; try assumption.
  apply andb_true_iff in H2 as [HL HS]. rewrite startsWith_HasPrefix in HS.
  apply HasPrefix_inv in HS as [r ->].
  destruct L; [discriminate HL|reflexivity].
Qed.

Lemma bodyOf_inv (E L line : string) :
  bodyOf E L line = true ->
  String.eqb line E = false
  /\ nonempty L && startsWith line L = false
  /\ isFinalStatus line = false.
Proof.
  unfold bodyOf. intros H.
  apply andb_true_iff in H as [H H3]. apply andb_true_iff in H as [H1 H2].
  repeat split; now apply negb_true_iff.
Qed.

Lemma terminalOf_inv (E L line : string) :
  terminalOf E L line = true ->
  String.eqb line E = false
  /\ nonempty L && startsWith line L = false
  /\ isFinalStatus line = true.
Proof.
  unfold terminalOf. intros H.
  apply andb_true_iff in H as [H H3]. apply andb_true_iff in H as [H1 H2].
  repeat split; try assumption; now apply negb_true_iff.
Qed.

(** Body lines under a pending header are appended to the body, with
    nothing between them, and nothing is sent. *)
Lemma listen_bodies (E L h : string) (bodies : list string) :
  nonempty h = true ->
  forallb (bodyOf E L) bodies = true ->
  forall acc : string,
    exists acts,
      listen (mkEngine E L h acc) (map LineIn bodies)
      = Done (mkEngine E L h (acc ++ concat_all bodies), acts)
      /\ rx_of acts = [].
Proof.
  intros Hh. induction bodies as [|b bodies IH]; intros Hb acc.
  - exists []. cbn. now rewrite append_nil_r.
  - cbn [forallb] in Hb. apply andb_true_iff in Hb as [Hb1 Hbs].
    destruct (bodyOf_inv _ _ _ Hb1) as (B1 & B2 & B3).
    destruct (IH Hbs (acc ++ b)) as (acts & Ea & Ra).
    exists (Log "case line := <-in" :: acts).
    cbn [map listen]. unfold listen_step at 1. cbn [echo last header body].
    rewrite B1, B2, B3, Hh. cbn [bind]. rewrite Ea. cbn [bind app].
    cbn [concat_all]. rewrite <- append_assoc. split; [reflexivity|exact Ra].
Qed.

(** X8: a reply of one header, any number of body lines and a terminal
    status gives exactly one packet on the response channel, the header
    parsed with that status and with the body lines joined end to end (no
    separator is kept between them); afterwards no header is pending. *)
Theorem listen_reply (E L b0 h fin : string) (bodies : list string)
        (pk : option Packet) :
  headerOf E L h = true ->
  forallb (bodyOf E L) bodies = true ->
  terminalOf E L fin = true ->
  parsePacket fin h (concat_all bodies) = Done pk ->
  exists acts,
    listen (mkEngine E L EmptyString b0) (map LineIn (h :: bodies ++ [fin]))
    = Done (mkEngine E L EmptyString EmptyString, acts)
    /\ rx_of acts = [pk].
Proof.
  intros Hh Hb Hf Hp.
  destruct (headerOf_inv _ _ _ Hh) as (H1 & H2 & H3).
  destruct (terminalOf_inv _ _ _ Hf) as (F1 & F2 & F3).
  destruct (listen_bodies E L h bodies H3 Hb EmptyString) as (acts & Ea & Ra).
  cbn [append] in Ea.
  exists (Log "case line := <-in"
          :: (acts ++ [Log "case line := <-in"; ToRx pk]))%list.
  cbn [map listen]. unfold listen_step at 1. cbn [echo last header body].
  rewrite H1, H2. cbn [nonempty String.eqb negb bind].
  rewrite map_app, listen_app, Ea. cbn [bind map listen].
  unfold listen_step. cbn [echo last header body].
  rewrite F1, F2, F3, Hp. cbn [bind app].
  split; [reflexivity|].
  cbn [rx_of]. rewrite rx_of_app, Ra. reflexivity.
Qed.

Lemma listen_reply_witness :
  exists acts,
    listen (mkEngine ("AT+CMGR=" ++ "1") "+CMGR" EmptyString EmptyString)
           (map LineIn
              (("+CMGR: " ++ quoted "REC READ" ++ "," ++ quoted "+123" ++ ",,"
                  ++ quoted "14/01/01,12:00:00+00")
                 :: ["first "; "second"] ++ ["OK"]))
    = Done (mkEngine ("AT+CMGR=" ++ "1") "+CMGR" EmptyString EmptyString, acts)
    /\ rx_of acts
       = [Some (MessagePacket
                  (mkMessage 0 "REC READ" "+123" (time.mkTime 2014 1 1 12 0 0 0)
                             "first second" false))].
Proof.
  exact (listen_reply ("AT+CMGR=" ++ "1") "+CMGR" EmptyString
           ("+CMGR: " ++ quoted "REC READ" ++ "," ++ quoted "+123" ++ ",,"
              ++ quoted "14/01/01,12:00:00+00")
           "OK" ["first "; "second"]
           (Some (MessagePacket
                    (mkMessage 0 "REC READ" "+123" (time.mkTime 2014 1 1 12 0 0 0)
                               "first second" false)))
           eq_refl eq_refl eq_refl eq_refl).
Defined.

(** X9: a terminal status that comes in while no header is pending is
    answered on the response channel with OK when the line is OK and with
    ERROR for every other terminal status (ERROR, or a line with +CMS ERROR
    or +CME ERROR in it); and send gives the caller an error exactly in the
    second case. *)
Theorem listen_bare_status
        (st : engine) (fin cmd line : string) (args : list value)
        (m : encodeMode) (g u : option value) (rest : list (option Packet))
        (t : list string) :
  header st = EmptyString ->
  terminalOf (echo st) (last st) fin = true ->
  formatCommand cmd args = Done line ->
  let pk := if String.eqb fin "OK" then OK else ERROR in
  listen_step st (LineIn fin)
  = Done (mkEngine (echo st) (last st) EmptyString EmptyString,
          [Log "case line := <-in"; ToRx (Some pk)])
  /\ send cmd args (mkWorld m g u (Some pk :: rest) t)
     = Finished (Some pk,
                 if String.eqb fin "OK" then None else Some "Response was ERROR")
                (mkWorld m g u rest (t ++ [line])).
Proof.
  intros Hh Hf Hc pk.
  destruct (terminalOf_inv _ _ _ Hf) as (F1 & F2 & F3).
  split.
  - unfold listen_step. rewrite F1, F2, F3, Hh.
    unfold parsePacket. cbn [String.eqb andb]. rewrite F3. cbn [bind].
    unfold pk. now destruct (String.eqb fin "OK").
  - unfold send, andThen, lift, transmit, receive. rewrite Hc.
    cbn [rx tx EncodeMode SMSCGsm SMSCUcs2].
    unfold pk. now destruct (String.eqb fin "OK").
Qed.

Lemma listen_bare_status_witness :
  listen_step (mkEngine "AT+CMGD=9" "+CMGD" EmptyString EmptyString)
              (LineIn "+CMS ERROR: 321")
  = Done (mkEngine "AT+CMGD=9" "+CMGD" EmptyString EmptyString,
          [Log "case line := <-in"; ToRx (Some ERROR)])
  /\ send "+CMGD" [VInt 9] (mkWorld GSM None None [Some ERROR] [])
     = Finished (Some ERROR, Some "Response was ERROR")
                (mkWorld GSM None None [] ["AT+CMGD=9" ++ CRLF]).
Proof.
  exact (listen_bare_status
           (mkEngine "AT+CMGD=9" "+CMGD" EmptyString EmptyString)
           "+CMS ERROR: 321" "+CMGD" ("AT+CMGD=9" ++ CRLF) [VInt 9]
           GSM None None [] [] eq_refl eq_refl eq_refl).
Defined.

(** ** The prefix that the engine expects *)

Lemma span_isUpper_stop (u rest : string) :
  allchars regexp.isUpper u = true ->
  match rest with
  | EmptyString => True
  | String c _ => regexp.isUpper c = false
  end ->
  regexp.span regexp.isUpper (u ++ rest) = (u, rest).
Proof.
  intros Hu Hr. induction u as [|c u IH].
  - destruct rest as [|c r]; [reflexivity|].
    cbn [append regexp.span]. now rewrite Hr.
  - cbn [allchars] in Hu. apply andb_true_iff in Hu as [Hc Hu].
    cbn [append regexp.span]. now rewrite Hc, (IH Hu).
Qed.

Lemma reQuestion_found (u rest : string) :
  u <> EmptyString ->
  allchars regexp.isUpper u = true ->
  match rest with
  | EmptyString => True
  | String c _ => regexp.isUpper c = false
  end ->
  regexp.reQuestion_group ("AT+" ++ u ++ rest) = Some ("+" ++ u).
Proof.
  intros Hn Hu Hr.
  change ("AT+" ++ u ++ rest) with (String "A" (String "T" (String "+" (u ++ rest)))).
  cbn [regexp.reQuestion_group strings.HasPrefix Ascii.eqb Bool.eqb andb
       strings.drop].
  rewrite (span_isUpper_stop u rest Hu Hr).
  destruct u; [congruence|reflexivity].
Qed.

Lemma reQuestion_none (s : string) :
  strings.Contains s "AT+" = false -> regexp.reQuestion_group s = None.
Proof.
  induction s as [|c s IH]; [reflexivity|].
  rewrite Contains_cons. intros H. apply orb_false_iff in H as [Hp Hs].
  cbn [regexp.reQuestion_group]. rewrite Hp. now apply IH.
Qed.

(** X10: when a command whose name is a plus sign and capital letters is
    transmitted, the prefix that the engine expects of the lines of the reply
    becomes that name; a command line without AT+ in it (the empty command,
    Z) leaves the prefix of the command before it in place.  Either way the
    pending header and body are untouched. *)
Theorem Transmit_prefix (st : engine) (u line : string) (args : list value) :
  u <> EmptyString ->
  allchars regexp.isUpper u = true ->
  formatCommand ("+" ++ u) args = Done line ->
  (exists st' acts,
      listen_step st (Transmit line) = Done (st', acts)
      /\ last st' = "+" ++ u
      /\ header st' = header st /\ body st' = body st)
  /\ (forall other : string,
      strings.Contains other "AT+" = false ->
      exists st' acts,
        listen_step st (Transmit other) = Done (st', acts)
        /\ last st' = last st
        /\ header st' = header st /\ body st' = body st).
Proof.
  intros Hn Hu Hc. split.
  - assert (R : regexp.reQuestion_group line = Some ("+" ++ u)).
    { assert (S : exists rest,
                 line = "AT+" ++ u ++ rest
                 /\ match rest with
                    | EmptyString => True
                    | String c _ => regexp.isUpper c = false
                    end).
      { unfold formatCommand in Hc. destruct args as [|a args].
        - cbn [bind] in Hc. injection Hc as <-. exists CRLF. now split.
        - destruct (quotes (a :: args)) as [q|]; [|discriminate Hc].
          cbn [bind] in Hc. injection Hc as <-.
          exists ("=" ++ q ++ CRLF). split; [|reflexivity].
          cbn [append]. now rewrite append_assoc. }
      destruct S as (rest & -> & Hr). now apply reQuestion_found. }
    cbn [listen_step]. rewrite R. eexists _, _. split; [reflexivity|].
    repeat split.
  - intros other Ho. cbn [listen_step]. rewrite (reQuestion_none other Ho).
    eexists _, _. split; [reflexivity|]. repeat split.
Qed.

Lemma Transmit_prefix_witness :
  exists st' acts,
    listen_step (mkEngine "ATZ" "+CMGL" EmptyString EmptyString)
                (Transmit ("AT+CSCA=?" ++ CRLF))
    = Done (st', acts)
    /\ last st' = "+" ++ "CSCA"
    /\ header st' = header (mkEngine "ATZ" "+CMGL" EmptyString EmptyString)
    /\ body st' = body (mkEngine "ATZ" "+CMGL" EmptyString EmptyString).
Proof.
  exact (proj1 (Transmit_prefix
                  (mkEngine "ATZ" "+CMGL" EmptyString EmptyString)
                  "CSCA" ("AT+CSCA=?" ++ CRLF) [VString "?"]
                  ltac:(discriminate) eq_refl eq_refl)).
Defined.

(** ** Listings of any length *)

(** The status with which a +CMGL entry is flushed decides its
    last-in-list flag and nothing else. *)
Lemma parsePacket_CMGL_status (status status' rest b : string) (m : Message) :
  parsePacket status ("+CMGL:" ++ rest) b = Done (Some (MessagePacket m)) ->
  parsePacket status' ("+CMGL:" ++ rest) b
  = Done (Some (MessagePacket
                  (withLast (negb (String.eqb status' EmptyString)) m))).
Proof.
  rewrite !parsePacket_CMGL_args. cbv zeta. intros H.
  repeat match type of H with
         | context [bind ?r _] => destruct r; cbn [bind] in *
         | context [if ?c then _ else _] => destruct c
         end;
    try discriminate H; now injection H as <-.
Qed.

Lemma CMGL_entry (h b : string) (m : Message) :
  startsWith h "+CMGL" = true ->
  parsePacket EmptyString h b = Done (Some (MessagePacket m)) ->
  Last m = false
  /\ parsePacket "OK" h b = Done (Some (MessagePacket (withLast true m))).
Proof.
  intros Hs Hp. rewrite startsWith_HasPrefix in Hs. split.
  - exact (CMGL_Last _ _ _ _ Hs Hp).
  - destruct (Message_header_CMGL _ _ _ _ Hs Hp) as [rest ->].
    exact (parsePacket_CMGL_status _ "OK" _ _ _ Hp).
Qed.

Lemma collect_marked (msgs : list Message) :
  forall (m : Message) (res : list Message),
    Last m = false ->
    Forall (fun x => Last x = false) msgs ->
    match map (fun x => Some (MessagePacket x)) (mark_last (m :: msgs)) with
    | p :: r => collect p r res = Returns (res ++ mark_last (m :: msgs))%list
    | [] => False
    end.
Proof.
  induction msgs as [|m' msgs IH]; intros m res Hm Hf.
  - reflexivity.
  - inversion Hf as [|? ? Hm' Hf']; subst.
    change (mark_last (m :: m' :: msgs)) with (m :: mark_last (m' :: msgs)).
    cbn [map].
    specialize (IH m' (res ++ [m])%list Hm' Hf').
    destruct (map (fun x => Some (MessagePacket x)) (mark_last (m' :: msgs)))
      as [|p r]; [destruct IH|].
    cbn [collect]. rewrite Hm, IH. now rewrite <- app_assoc.
Qed.

Section Entries.

Variable x : string.

Lemma listen_entries_pending (entries : list (string * list string)) :
  forall (msgs : list Message) (hp bp : string) (mp : Message),
    Forall2 (entry_ok x) entries msgs ->
    startsWith hp "+CMGL" = true ->
    parsePacket EmptyString hp bp = Done (Some (MessagePacket mp)) ->
    exists acts,
      listen (mkEngine ("AT+CMGL=" ++ x) "+CMGL" hp bp)
             (map LineIn (entry_lines entries ++ ["OK"]))
      = Done (mkEngine ("AT+CMGL=" ++ x) "+CMGL" EmptyString EmptyString, acts)
      /\ rx_of acts
         = map (fun m => Some (MessagePacket m)) (mark_last (mp :: msgs)).
Proof.
  induction entries as [|e entries IH]; intros msgs hp bp mp Hf Hs Hp;
    inversion Hf as [|? m ? msgs' (Hes & Heb & Hep) Hf']; subst.
  - destruct (CMGL_entry hp bp mp Hs Hp) as [_ Hok].
    eexists. cbn [entry_lines flat_map app map listen].
    rewrite (step_final ("AT+CMGL=" ++ x) hp bp "OK" eq_refl _ eq_refl eq_refl Hok).
    cbn [bind]. split; reflexivity.
  - destruct (header_not_echo hp x Hs) as [_ Np].
    destruct (header_not_echo (fst e) x Hes) as [Ee Ne].
    destruct (listen_bodies ("AT+CMGL=" ++ x) "+CMGL" (fst e) (snd e) Ne Heb
                            EmptyString) as (actsb & Eb & Rb).
    change (EmptyString ++ concat_all (snd e)) with (concat_all (snd e)) in Eb.
    destruct (IH msgs' (fst e) (concat_all (snd e)) m Hf' Hes Hep)
      as (acts & Ea & Ra).
    eexists.
    cbn [entry_lines flat_map]. rewrite <- app_assoc.
    cbn [app map listen].
    rewrite (step_next_header ("AT+CMGL=" ++ x) hp bp (fst e) Ee _ Hes Np Hp).
    cbn [bind]. rewrite map_app, listen_app, Eb. cbn [bind].
    fold (entry_lines entries). rewrite Ea. cbn [bind].
    split; [reflexivity|].
    cbn [app rx_of]. rewrite rx_of_app, Rb, Ra. reflexivity.
Qed.

Lemma listen_entries (entries : list (string * list string)) :
  forall (msgs : list Message) (b0 : string),
    Forall2 (entry_ok x) entries msgs ->
    exists acts,
      listen (mkEngine ("AT+CMGL=" ++ x) "+CMGL" EmptyString b0)
             (map LineIn (entry_lines entries ++ ["OK"]))
      = Done (mkEngine ("AT+CMGL=" ++ x) "+CMGL" EmptyString EmptyString, acts)
      /\ ListMessages_rx (rx_of acts) = Returns (mark_last msgs).
Proof.
  intros msgs b0 Hf.
  inversion Hf as [|e m entries' msgs' (Hes & Heb & Hep) Hf']; subst.
  - eexists. cbn [entry_lines flat_map app map listen].
    rewrite (step_final ("AT+CMGL=" ++ x) EmptyString b0 "OK" eq_refl
                        (Some OK) eq_refl eq_refl eq_refl).
    cbn [bind]. split; reflexivity.
  - destruct (header_not_echo (fst e) x Hes) as [Ee Ne].
    destruct (listen_bodies ("AT+CMGL=" ++ x) "+CMGL" (fst e) (snd e) Ne Heb
                            EmptyString) as (actsb & Eb & Rb).
    change (EmptyString ++ concat_all (snd e)) with (concat_all (snd e)) in Eb.
    destruct (listen_entries_pending entries' msgs' (fst e) (concat_all (snd e))
                                     m Hf' Hes Hep) as (acts & Ea & Ra).
    eexists.
    cbn [entry_lines flat_map]. rewrite <- app_assoc.
    cbn [app map listen].
    rewrite (step_first_header ("AT+CMGL=" ++ x) b0 (fst e) Ee Hes).
    cbn [bind]. rewrite map_app, listen_app, Eb. cbn [bind].
    fold (entry_lines entries'). rewrite Ea. cbn [bind].
    split; [reflexivity|].
    cbn [app rx_of]. rewrite rx_of_app, Rb, Ra. cbn [app].
    assert (Lm : Last m = false) by (apply (CMGL_entry _ _ _ Hes Hep)).
    assert (Ls : Forall (fun y => Last y = false) msgs').
    { clear - Hf'. induction Hf' as [|e' m' es ms (Hs' & _ & Hp') _ IH'];
        constructor; [apply (CMGL_entry _ _ _ Hs' Hp')|exact IH']. }
    pose proof (collect_marked msgs' m [] Lm Ls) as C.
    destruct (map (fun y => Some (MessagePacket y)) (mark_last (m :: msgs')))
      as [|p r] eqn:Em; [destruct C|].
    unfold ListMessages_rx.
    assert (Hp : exists m0, p = Some (MessagePacket m0)).
    { destruct msgs'; cbn in Em; injection Em as <- _; eauto. }
    destruct Hp as [m0 ->]. exact C.
Qed.

End Entries.

(** X11: when the +CMGL command is sent with no header pending and is
    answered (after its echo or without one) by any number of entries and
    then OK, ListMessages returns one Message for every entry, in the order
    of arrival, with the last-in-list flag set on the last one only; with no
    entry at all (a bare OK) it returns the empty list.  An entry is a line
    that starts with +CMGL followed by any number of body lines, none of
    which is the echo of the command, starts with +CMGL or is a terminal
    status (OK, ERROR, a line with +CMS ERROR or +CME ERROR in it), and such
    that the parser reads the header with the body lines joined end to end
    as a Message, which is the Message returned for it.  (A body line that is
    a terminal status or starts with +CMGL ends the entry, and a header on
    which the parser panics ends the engine: for such answers nothing is
    stated.) *)
Theorem ListMessages_entries
        (st : engine) (filter : string) (entries : list (string * list string))
        (msgs : list Message) (echoed : bool) :
  let q := if String.eqb filter "?" then filter else quoted filter in
  header st = EmptyString ->
  Forall2 (entry_ok q) entries msgs ->
  ListMessages st filter
    ((if echoed then ["AT+CMGL=" ++ q] else []) ++ entry_lines entries ++ ["OK"])
  = Done (Returns (mark_last msgs))
  /\ Forall (fun m => Last m = false) msgs.
Proof.
  intros q Hh Hf. split.
  - unfold ListMessages. rewrite formatCommand_CMGL. cbn [bind].
    cbn [listen]. unfold listen_step at 1.
    rewrite echo_of_CMGL, reQuestion_CMGL, Hh. fold q. cbn [bind].
    destruct (listen_entries q entries msgs (body st) Hf) as (acts & Ea & Ra).
    destruct echoed; cbn [app map].
    + cbn [listen]. rewrite step_echo. cbn [bind]. rewrite Ea. cbn [bind].
      cbn [app rx_of]. now rewrite Ra.
    + rewrite Ea. cbn [bind]. cbn [app rx_of]. now rewrite Ra.
  - clear - Hf. induction Hf as [|e m es ms (Hs & _ & Hp) _ IH];
      constructor; [apply (CMGL_entry _ _ _ Hs Hp)|exact IH].
Qed.

Lemma ListMessages_entries_witness :
  ListMessages (mkEngine EmptyString EmptyString EmptyString EmptyString) "ALL"
    ([] ++ entry_lines
       [("+CMGL: 1," ++ quoted "REC READ" ++ "," ++ quoted "+123" ++ ",,"
           ++ quoted "14/01/01,12:00:00+00", ["one"]);
        ("+CMGL: 2," ++ quoted "REC READ" ++ ",456,,"
           ++ quoted "14/01/02,13:10:00+00", ["two, "; "in two lines"]);
        ("+CMGL: 3," ++ quoted "REC UNREAD" ++ "," ++ quoted "+789" ++ ",,"
           ++ quoted "14/01/03,09:00:00+00", [])]
       ++ ["OK"])
  = Done (Returns
      [mkMessage 1 "REC READ" "+123" (time.mkTime 2014 1 1 12 0 0 0) "one" false;
       mkMessage 2 "REC READ" "456" time.zero "two, in two lines" false;
       mkMessage 3 "REC UNREAD" "+789" (time.mkTime 2014 1 3 9 0 0 0)
                 EmptyString true]).
Proof.
  refine (proj1 (ListMessages_entries
    (mkEngine EmptyString EmptyString EmptyString EmptyString) "ALL"
    [("+CMGL: 1," ++ quoted "REC READ" ++ "," ++ quoted "+123" ++ ",,"
        ++ quoted "14/01/01,12:00:00+00", ["one"]);
     ("+CMGL: 2," ++ quoted "REC READ" ++ ",456,,"
        ++ quoted "14/01/02,13:10:00+00", ["two, "; "in two lines"]);
     ("+CMGL: 3," ++ quoted "REC UNREAD" ++ "," ++ quoted "+789" ++ ",,"
        ++ quoted "14/01/03,09:00:00+00", [])]
    [mkMessage 1 "REC READ" "+123" (time.mkTime 2014 1 1 12 0 0 0) "one" false;
     mkMessage 2 "REC READ" "456" time.zero "two, in two lines" false;
     mkMessage 3 "REC UNREAD" "+789" (time.mkTime 2014 1 3 9 0 0 0)
               EmptyString false]
    false eq_refl _)).
  repeat (constructor; [repeat split|]). constructor.
Defined.

(** ** The callers *)

Lemma andThen_Finished {A B : Type} (m : call A) (k : A -> call B)
      (w w2 : world) (b : B) :
  andThen m k w = Finished b w2 ->
  exists a w1, m w = Finished a w1 /\ k a w1 = Finished b w2.
Proof.
  unfold andThen. destruct (m w) as [a w1|p w1|w1]; try discriminate.
  intros H. now exists a, w1.
Qed.

(** A send hands over one line, takes one packet, and leaves the package
    variables as they are; its error is that of an ERROR packet. *)
Lemma send_Finished (cmd : string) (args : list value) (w w' : world)
      (r : option Packet * error) :
  send cmd args w = Finished r w' ->
  exists line rest,
    formatCommand cmd args = Done line
    /\ rx w = fst r :: rest
    /\ snd r = (if isERROR (fst r) then Some "Response was ERROR" else None)
    /\ w' = mkWorld (EncodeMode w) (SMSCGsm w) (SMSCUcs2 w) rest (tx w ++ [line]).
Proof.
  unfold send, andThen, lift, transmit, receive.
  destruct (formatCommand cmd args) as [line|]; [|discriminate].
  cbn [rx tx EncodeMode SMSCGsm SMSCUcs2].
  destruct (rx w) as [|p rest]; [discriminate|].
  destruct (isERROR p) eqn:E; intros [= <- <-]; exists line, rest;
    cbn [fst snd]; rewrite E; now repeat split.
Qed.

Lemma send_mode (cmd : string) (args : list value) (w w' : world)
      (r : option Packet * error) :
  send cmd args w = Finished r w' -> EncodeMode w' = EncodeMode w.
Proof.
  intros H. apply send_Finished in H as (line & rest & _ & _ & _ & ->).
  reflexivity.
Qed.

Ltac step_call H :=
  let a := fresh "a" in
  let w1 := fresh "w" in
  let H1 := fresh "S" in
  apply andThen_Finished in H; destruct H as (a & w1 & H1 & H).

Lemma setSMSC_mode (encode : encodeMode) (w w' : world) (e : error) :
  setSMSC encode w = Finished e w' -> EncodeMode w' = EncodeMode w.
Proof.
  unfold setSMSC. intros H. step_call H. destruct a as [r err].
  apply send_mode in S. rewrite <- S.
  destruct err; [now injection H as _ <-|].
  destruct r as [[| |?|? ?|?|?|args|? ? ?|? ? ? ? ? ?|? ?]|]; try discriminate H.
  step_call H. unfold lift in S0.
  destruct (at_index args 0); [|discriminate S0]. injection S0 as <- <-.
  step_call H.
  assert (M : EncodeMode w1 = EncodeMode w0)
    by (destruct encode; now injection S0 as _ <-).
  step_call H. destruct a1 as [r' err']. apply send_mode in S1.
  destruct err'; injection H as _ <-; congruence.
Qed.

Lemma ChangeTo_mode (e : error) (w w' : world) :
  (ChangeToUCS2 w = Finished e w' -> EncodeMode w' = UCS2)
  /\ (ChangeToGSM w = Finished e w' -> EncodeMode w' = GSM).
Proof.
  split; unfold ChangeToUCS2, ChangeToGSM; intros H;
    step_call H; injection S as _ <-;
    step_call H; destruct a0 as [r err]; apply send_mode in S;
    cbn [EncodeMode] in S;
    (destruct err; [injection H as _ <-; exact S|]);
    step_call H; destruct a0 as [r' err']; apply send_mode in S0;
    (destruct err'; [injection H as _ <-; congruence|]);
    step_call H; apply setSMSC_mode in S1;
    destruct a0; injection H as _ <-; congruence.
Qed.

Tactic Notation "step_call" hyp(H) "as" ident(a) ident(w1) ident(S) :=
  apply andThen_Finished in H; destruct H as (a & w1 & S & H).

(** X12: init leaves the encoding mode as it found it whenever it
    returns, whatever the modem answers (on the way it switches to the 16-bit
    mode and back); and when it is started in the GSM mode it returns no
    error, the errors of all its commands being dropped. *)
Theorem init_mode (w w' : world) (e : error) :
  init w = Finished e w' ->
  EncodeMode w' = EncodeMode w
  /\ (EncodeMode w = GSM -> e = None).
Proof.
  unfold init. intros H.
  step_call H as r0 wa Sa. apply send_mode in Sa.
  step_call H as r1 wb Sb. apply send_mode in Sb.
  step_call H as mode wc Sc. injection Sc as <- <-.
  step_call H as err wd Sd.
  assert (M : EncodeMode wd = EncodeMode w /\ (EncodeMode w = GSM -> err = None)).
  { destruct (EncodeMode wb) eqn:Em.
    - step_call Sd as e1 we Se. step_call Sd as e2 wf Sf.
      injection Sd as <- <-.
      apply (ChangeTo_mode e2 we wf) in Sf. split; [congruence|reflexivity].
    - step_call Sd as e1 we Se. apply setSMSC_mode in Se.
      assert (G : EncodeMode w = GSM -> err = None) by congruence.
      destruct e1; [injection Sd as _ <-; split; [congruence|exact G]|].
      step_call Sd as e2 wf Sf. apply (ChangeTo_mode e2 we wf) in Sf.
      destruct e2; injection Sd as _ <-; split; congruence. }
  destruct M as [M G].
  destruct err; [injection H as <- <-; split; [exact M|intros Hg; now apply G]|].
  step_call H as r2 we Se. apply send_mode in Se.
  step_call H as r3 wf Sf. apply send_mode in Sf.
  injection H as <- <-. split; [congruence|reflexivity].
Qed.

Lemma init_mode_witness :
  EncodeMode
    (mkWorld GSM (Some (VString "+9891100500")) (Some (VString "002B0039"))
             [] ["AT" ++ CRLF; "ATZ" ++ CRLF;
                 "AT+CSCS=" ++ quoted "UCS2" ++ CRLF;
                 "AT+CSMP=49,167,0,8" ++ CRLF;
                 "AT+CSCA?" ++ CRLF;
                 "AT+CSCA=" ++ quoted "002B0039" ++ ",145" ++ CRLF;
                 "AT+CSCS=" ++ quoted "GSM" ++ CRLF;
                 "AT+CSMP=49,167,0,0" ++ CRLF;
                 "AT+CSCA?" ++ CRLF;
                 "AT+CSCA=" ++ quoted "+9891100500" ++ ",145" ++ CRLF;
                 "AT+CMGF=1" ++ CRLF;
                 "AT+CNMI=2,2,0,1,0" ++ CRLF])
  = GSM
  /\ (GSM = GSM -> @None string = None).
Proof.
  exact (init_mode
    (mkWorld GSM None None
       [Some OK; Some OK; Some OK; Some OK;
        Some (SMSCAddress [VString "002B0039"; VInt 145]); Some OK;
        Some OK; Some OK;
        Some (SMSCAddress [VString "+9891100500"; VInt 145]); Some OK;
        Some ERROR; Some OK] [])
    (mkWorld GSM (Some (VString "+9891100500")) (Some (VString "002B0039"))
             [] ["AT" ++ CRLF; "ATZ" ++ CRLF;
                 "AT+CSCS=" ++ quoted "UCS2" ++ CRLF;
                 "AT+CSMP=49,167,0,8" ++ CRLF;
                 "AT+CSCA?" ++ CRLF;
                 "AT+CSCA=" ++ quoted "002B0039" ++ ",145" ++ CRLF;
                 "AT+CSCS=" ++ quoted "GSM" ++ CRLF;
                 "AT+CSMP=49,167,0,0" ++ CRLF;
                 "AT+CSCA?" ++ CRLF;
                 "AT+CSCA=" ++ quoted "+9891100500" ++ ",145" ++ CRLF;
                 "AT+CMGF=1" ++ CRLF;
                 "AT+CNMI=2,2,0,1,0" ++ CRLF])
    None eq_refl).
Defined.

Lemma quote_unquote_Done (t : string) : exists q, quote (unquote t) = Done q.
Proof.
  unfold unquote. destruct (startsWith t qq).
  - cbn [quote]. destruct (String.eqb _ "?"); eauto.
  - destruct (strconv.Atoi t); cbn [quote]; [eauto|].
    destruct (String.eqb _ "?"); eauto.
Qed.

Lemma quotes_unquotes_Done (s : string) :
  exists a0 args q,
    unquotes s = a0 :: args /\ quotes (unquotes s) = Done q.
Proof.
  assert (Q : forall ts, exists qs, quote_all (map unquote ts) = Done qs).
  { induction ts as [|t ts (qs & E)]; [now exists []|].
    destruct (quote_unquote_Done t) as (q & Eq).
    exists (q :: qs). cbn [map quote_all]. now rewrite Eq, E. }
  unfold quotes. destruct (Q (regexp.RegexQuote_FindAllString s)) as (qs & E).
  fold (unquotes s) in E. rewrite E. cbn [bind].
  assert (N : unquotes s <> []).
  { unfold unquotes, regexp.RegexQuote_FindAllString.
    pose proof (allMatches_nonempty (String.length s) s) as H.
    destruct (regexp.allMatches _ s false); [congruence|discriminate]. }
  destruct (unquotes s) as [|a0 args]; [congruence|].
  now exists a0, args, (strings.Join qs ",").
Qed.

Lemma parsePacket_CSCA_args (status rest body : string) :
  parsePacket status ("+CSCA:" ++ rest) body
  = Done (Some (SMSCAddress (unquotes (strings.TrimSpace rest)))).
Proof. reflexivity. Qed.

(** X13: setSMSC on the reply that the parser makes of a +CSCA header,
    whatever its text: the assertion and args[0] never panic, the first
    argument is stored in the variable of the given mode and in no other,
    the arguments are sent back quoted after +CSCA=, and the error is that of
    the second reply alone. *)
Theorem setSMSC_CSCA (encode : encodeMode) (status s body : string)
        (m : encodeMode) (g u : option value) (p2 : option Packet)
        (rest : list (option Packet)) (t : list string) :
  exists (p1 : option Packet) (a0 : value) (args : list value) (q : string),
    parsePacket status ("+CSCA:" ++ s) body = Done p1
    /\ p1 = Some (SMSCAddress (a0 :: args))
    /\ quotes (a0 :: args) = Done q
    /\ setSMSC encode (mkWorld m g u (p1 :: p2 :: rest) t)
       = Finished (if isERROR p2 then Some "Response was ERROR" else None)
           (mkWorld m
              (match encode with GSM => Some a0 | UCS2 => g end)
              (match encode with GSM => u | UCS2 => Some a0 end)
              rest
              (t ++ ["AT+CSCA?" ++ CRLF; "AT+CSCA=" ++ q ++ CRLF])).
Proof.
  destruct (quotes_unquotes_Done (strings.TrimSpace s)) as (a0 & args & q & E & Q).
  rewrite E in Q.
  exists (Some (SMSCAddress (a0 :: args))), a0, args, q.
  split; [now rewrite parsePacket_CSCA_args, E|].
  split; [reflexivity|]. split; [exact Q|].
  unfold setSMSC, send, andThen, lift, transmit, receive, ret.
  cbn [formatCommand bind rx tx EncodeMode SMSCGsm SMSCUcs2 isERROR at_index
       nth_error].
  unfold formatCommand. rewrite Q. cbn [bind].
  destruct encode;
    cbn [setSMSCGsm setSMSCUcs2 rx tx EncodeMode SMSCGsm SMSCUcs2];
    rewrite <- app_assoc; cbn [app];
    destruct (isERROR p2); reflexivity.
Qed.

Lemma send_eq (cmd line : string) (args : list value) (m : encodeMode)
      (g u : option value) (p : option Packet) (rest : list (option Packet))
      (t : list string) :
  formatCommand cmd args = Done line ->
  send cmd args (mkWorld m g u (p :: rest) t)
  = Finished (p, if isERROR p then Some "Response was ERROR" else None)
      (mkWorld m g u rest (t ++ [line])).
Proof.
  intros F. unfold send, andThen, lift, transmit, receive, ret. rewrite F.
  cbn [rx tx EncodeMode SMSCGsm SMSCUcs2]. now destruct (isERROR p).
Qed.

Lemma sendBody_eq (cmd body line : string) (args : list value)
      (m : encodeMode) (g u : option value) (p : option Packet)
      (rest : list (option Packet)) (t : list string) :
  formatCommand cmd args = Done line ->
  sendBody cmd body args (mkWorld m g u (p :: rest) t)
  = Finished (p, if isERROR p then Some "Response was ERROR" else None)
      (mkWorld m g u rest
         (t ++ [line; body ++ String (ascii_of_nat 26) EmptyString])).
Proof.
  intros F. unfold sendBody, andThen, lift, transmit, receive, ret. rewrite F.
  cbn [rx tx EncodeMode SMSCGsm SMSCUcs2]. rewrite <- app_assoc.
  now destruct (isERROR p).
Qed.

Lemma formatCommand_int (cmd : string) (n : Z) :
  formatCommand cmd [VInt n] = Done ("AT" ++ cmd ++ "=" ++ strconv.Itoa n ++ CRLF).
Proof.
  unfold formatCommand, quotes. cbn [quote_all quote bind strings.Join].
  rewrite ?append_nil_r. now rewrite !append_assoc.
Qed.

(** X14: GetMessagePDU switches the modem to the PDU mode, reads, and
    switches back to the text mode only when the read is not answered by
    ERROR: after an ERROR it returns with two commands sent and the modem
    left in the PDU mode.  The answers to the two mode commands are
    ignored. *)
Theorem GetMessagePDU_mode (n : Z) (m : encodeMode) (g u : option value)
        (p0 p1 p2 : option Packet) (rest : list (option Packet))
        (t : list string) :
  (isERROR p1 = true ->
   GetMessagePDU n (mkWorld m g u (p0 :: p1 :: p2 :: rest) t)
   = Finished (None, Some "Response was ERROR")
       (mkWorld m g u (p2 :: rest)
          (t ++ ["AT+CMGF=0" ++ CRLF; "AT+CMGR=" ++ strconv.Itoa n ++ CRLF])))
  /\ (isERROR p1 = false ->
      GetMessagePDU n (mkWorld m g u (p0 :: p1 :: p2 :: rest) t)
      = Finished (match p1 with
                  | Some (MessagePacket msg) => (Some msg, None)
                  | _ => (None, Some "Message not found")
                  end)
          (mkWorld m g u rest
             (t ++ ["AT+CMGF=0" ++ CRLF; "AT+CMGR=" ++ strconv.Itoa n ++ CRLF;
                    "AT+CMGF=1" ++ CRLF]))).
Proof.
  split; intros E; unfold GetMessagePDU, andThen;
    rewrite (send_eq _ _ _ _ _ _ _ _ _ (formatCommand_int "+CMGF" 0));
    rewrite (send_eq _ _ _ _ _ _ _ _ _ (formatCommand_int "+CMGR" n));
    rewrite E; unfold ret.
  - rewrite <- app_assoc. reflexivity.
  - rewrite (send_eq _ _ _ _ _ _ _ _ _ (formatCommand_int "+CMGF" 1)).
    rewrite <- !app_assoc. cbn [app].
    destruct p1 as [[| |?|? ?|?|?|?|? ? ?|? ? ? ? ? ?|? ?]|]; reflexivity.
Qed.

(** X15: SendMessagePDU always switches back to the text mode: it sends
    four lines, the mode command, +CMGS with the length, the body closed by
    the character 26, and the mode command again, and its error is that of
    the reply to the body alone, the replies to the mode commands being
    ignored. *)
Theorem SendMessagePDU_lines (len : Z) (body : string) (m : encodeMode)
        (g u : option value) (p0 p1 p2 : option Packet)
        (rest : list (option Packet)) (t : list string) :
  SendMessagePDU len body (mkWorld m g u (p0 :: p1 :: p2 :: rest) t)
  = Finished (if isERROR p1 then Some "Response was ERROR" else None)
      (mkWorld m g u rest
         (t ++ ["AT+CMGF=0" ++ CRLF;
                "AT+CMGS=" ++ strconv.Itoa len ++ CRLF;
                body ++ String (ascii_of_nat 26) EmptyString;
                "AT+CMGF=1" ++ CRLF])).
Proof.
  unfold SendMessagePDU, andThen.
  rewrite (send_eq _ _ _ _ _ _ _ _ _ (formatCommand_int "+CMGF" 0)).
  rewrite (sendBody_eq _ _ _ _ _ _ _ _ _ _ (formatCommand_int "+CMGS" len)).
  rewrite (send_eq _ _ _ _ _ _ _ _ _ (formatCommand_int "+CMGF" 1)).
  unfold ret. rewrite <- !app_assoc. reflexivity.
Qed.

(** ** The line reader *)

Lemma TrimRight_drop_last (cutset s : string) (c : ascii) :
  strings.in_cutset cutset c = true ->
  strings.TrimRight (s ++ String c EmptyString) cutset = strings.TrimRight s cutset.
Proof.
  intros Hc. induction s as [|x s IH].
  - cbn [append strings.TrimRight]. now rewrite Hc.
  - cbn [append strings.TrimRight]. now rewrite IH.
Qed.

Lemma TrimRight_LF (s : string) :
  strings.TrimRight (s ++ LF) CRLF = strings.TrimRight s CRLF.
Proof. now apply TrimRight_drop_last. Qed.

Lemma allchars_TrimRight (p : ascii -> bool) (s cutset : string) :
  allchars p s = true -> allchars p (strings.TrimRight s cutset) = true.
Proof.
  induction s as [|c s IH]; [reflexivity|].
  cbn [allchars strings.TrimRight]. intros H.
  apply andb_true_iff in H as [Hc Hs]. specialize (IH Hs).
  destruct (strings.TrimRight s cutset) as [|d r].
  - destruct (strings.in_cutset cutset c); [reflexivity|].
    cbn [allchars]. now rewrite Hc.
  - cbn [allchars] in *. now rewrite Hc, IH.
Qed.

(** What TrimRight returns does not end with a character of the cut set. *)
Lemma TrimRight_last (cutset s x : string) (c : ascii) :
  strings.TrimRight s cutset = x ++ String c EmptyString ->
  strings.in_cutset cutset c = false.
Proof.
  revert x; induction s as [|a s IH]; intros x; [now destruct x|].
  cbn [strings.TrimRight].
  destruct (strings.TrimRight s cutset) as [|d r] eqn:E.
  - destruct (strings.in_cutset cutset a) eqn:Ea; [now destruct x|].
    destruct x as [|y x]; cbn [append].
    + now intros [= <-].
    + intros [= _ H]. now destruct x.
  - destruct x as [|y x]; cbn [append]; [discriminate|].
    intros [= _ H]. now apply (IH x).
Qed.

Lemma emit_spec (line : string) :
  emit line = filter nonempty [strings.TrimRight line CRLF].
Proof.
  unfold emit, nonempty. cbn [filter].
  now destruct (String.eqb (strings.TrimRight line CRLF) EmptyString).
Qed.

Lemma lineChannel_from_chunk (l cur rest : string) :
  allchars notLF l = true ->
  lineChannel_from cur (l ++ LF ++ rest)
  = (emit ((cur ++ l) ++ LF) ++ lineChannel_from EmptyString rest)%list.
Proof.
  revert cur; induction l as [|c l IH]; intros cur H.
  - cbn [append lineChannel_from LF]. now rewrite append_nil_r.
  - cbn [allchars] in H. apply andb_true_iff in H as [Hc Hl].
    unfold notLF in Hc. apply negb_true_iff in Hc.
    cbn [append lineChannel_from]. rewrite Hc, (IH _ Hl).
    now rewrite (append_assoc cur (String c EmptyString) l).
Qed.

Lemma lineChannel_from_tail (l cur : string) :
  allchars notLF l = true ->
  lineChannel_from cur l = emit (cur ++ l).
Proof.
  revert cur; induction l as [|c l IH]; intros cur H.
  - cbn [lineChannel_from]. now rewrite append_nil_r.
  - cbn [allchars] in H. apply andb_true_iff in H as [Hc Hl].
    unfold notLF in Hc. apply negb_true_iff in Hc.
    cbn [lineChannel_from]. rewrite Hc, (IH _ Hl).
    now rewrite (append_assoc cur (String c EmptyString) l).
Qed.

(** X16: the reader cuts its input at every LF, trims CR and LF from the
    right of each piece, the unterminated last piece included, and passes on
    the pieces that are not empty, in order: blank lines are dropped, and a
    line end of LF alone is as good as CR LF. *)
Theorem lineChannel_chunks (ls : list string) (tail : string) :
  Forall (fun l => allchars notLF l = true) ls ->
  allchars notLF tail = true ->
  lineChannel (concat_all (map (fun l => l ++ LF) ls) ++ tail)
  = filter nonempty
      (map (fun l => strings.TrimRight l CRLF) (ls ++ [tail])%list).
Proof.
  intros Hls Ht. unfold lineChannel.
  induction Hls as [|l ls Hl _ IH].
  - cbn [map concat_all append app]. rewrite (lineChannel_from_tail _ _ Ht).
    cbn [append]. apply emit_spec.
  - cbn [map concat_all app]. rewrite !append_assoc.
    rewrite (lineChannel_from_chunk _ _ _ Hl), IH.
    cbn [append]. rewrite emit_spec, TrimRight_LF.
    cbn [filter]. now destruct (nonempty (strings.TrimRight l CRLF)).
Qed.

Lemma lineChannel_chunks_witness :
  lineChannel
    (concat_all
       (map (fun l => l ++ LF)
            ["AT+CMGF=1" ++ String (ascii_of_nat 13) EmptyString;
             String (ascii_of_nat 13) EmptyString;
             "OK" ++ String (ascii_of_nat 13) EmptyString; EmptyString;
             "+CMTI: 3"])
     ++ "ERR")
  = ["AT+CMGF=1"; "OK"; "+CMTI: 3"; "ERR"].
Proof.
  refine (lineChannel_chunks
            ["AT+CMGF=1" ++ String (ascii_of_nat 13) EmptyString;
             String (ascii_of_nat 13) EmptyString;
             "OK" ++ String (ascii_of_nat 13) EmptyString; EmptyString;
             "+CMTI: 3"] "ERR" _ eq_refl).
  repeat constructor.
Defined.

Lemma emit_lines (cur : string) :
  allchars notLF cur = true ->
  Forall (fun l => l <> EmptyString
                   /\ allchars notLF l = true
                   /\ forall x c, l = x ++ String c EmptyString ->
                                  strings.in_cutset CRLF c = false)
         (emit (cur ++ LF))
  /\ Forall (fun l => l <> EmptyString
                   /\ allchars notLF l = true
                   /\ forall x c, l = x ++ String c EmptyString ->
                                  strings.in_cutset CRLF c = false)
         (emit cur).
Proof.
  intros H.
  assert (E : forall line, strings.TrimRight line CRLF = strings.TrimRight cur CRLF ->
    Forall (fun l => l <> EmptyString
                   /\ allchars notLF l = true
                   /\ forall x c, l = x ++ String c EmptyString ->
                                  strings.in_cutset CRLF c = false)
           (emit line)).
  { intros line El. unfold emit. rewrite El.
    destruct (String.eqb_spec (strings.TrimRight cur CRLF) EmptyString) as [|N];
      constructor; [|constructor].
    split; [exact N|]. split; [now apply allchars_TrimRight|].
    intros x c Ex. now apply (TrimRight_last CRLF cur x c). }
  split; apply E; [apply TrimRight_LF|reflexivity].
Qed.

(** X17: whatever the port delivers, a line that the reader passes on is
    not empty, holds no LF, and does not end with CR or LF. *)
Theorem lineChannel_lines (s : string) :
  Forall (fun l => l <> EmptyString
                   /\ allchars notLF l = true
                   /\ forall x c, l = x ++ String c EmptyString ->
                                  strings.in_cutset CRLF c = false)
         (lineChannel s).
Proof.
  unfold lineChannel.
  assert (G : forall cur, allchars notLF cur = true ->
    Forall (fun l => l <> EmptyString
                   /\ allchars notLF l = true
                   /\ forall x c, l = x ++ String c EmptyString ->
                                  strings.in_cutset CRLF c = false)
           (lineChannel_from cur s)).
  { induction s as [|c s IH]; intros cur H.
    - cbn [lineChannel_from]. exact (proj2 (emit_lines cur H)).
    - cbn [lineChannel_from]. destruct (code c =? 10)%nat eqn:Ec.
      + apply Forall_app. split; [|now apply IH].
        assert (L : String c EmptyString = LF).
        { apply Nat.eqb_eq in Ec. unfold code in Ec.
          rewrite <- (ascii_nat_embedding c), Ec. reflexivity. }
        rewrite L. exact (proj1 (emit_lines cur H)).
      + apply IH. rewrite allchars_append, H. cbn [allchars].
        unfold notLF. now rewrite Ec. }
  now apply G.
Qed.

(** ** The codecs, on whole strings *)

Lemma gsmDecode_app (a b : list rune) :
  Util1.gsmDecode (a ++ b) = (Util1.gsmDecode a ++ Util1.gsmDecode b)%list.
Proof. apply flat_map_app. Qed.

Lemma gsm_cons (c : rune) (s : list rune) :
  Util1.gsmDecode (Util1.gsmEncode (c :: s))
  = (Util1.gsmDecode (Util1.gsmEncode [c])
     ++ Util1.gsmDecode (Util1.gsmEncode s))%list.
Proof.
  unfold Util1.gsmEncode. cbn [flat_map]. now rewrite app_nil_r, gsmDecode_app.
Qed.

Lemma gsm_plain (c : rune) :
  plain c = true -> Util1.gsmDecode (Util1.gsmEncode [c]) = [c].
Proof.
  unfold plain. destruct (lookup c Util1.gsm0338Encode) as [d|] eqn:E.
  - intros He. apply negb_true_iff in He.
    pose proof (lookup_forallb
      (fun e => escaped (fst e)
                || runes_eqb (Util1.gsmDecode (Util1.gsmEncode [fst e])) [fst e])
      Util1.gsm0338Encode eq_refl c d E) as H.
    cbn [fst] in H. rewrite He in H. now apply runes_eqb_eq.
  - unfold Util1.gsmEncode, Util1.gsmDecode. cbn [flat_map]. rewrite E.
    cbn [flat_map app].
    destruct (lookup c Util1.gsm0338Decode) as [d|]; [|reflexivity].
    intros H. apply Z.eqb_eq in H. now subst d.
Qed.

Lemma gsm_not_plain (c : rune) :
  plain c = false ->
  exists h t, Util1.gsmDecode (Util1.gsmEncode [c]) = h :: t /\ h <> c.
Proof.
  unfold plain. destruct (lookup c Util1.gsm0338Encode) as [d|] eqn:E.
  - intros He. apply negb_false_iff in He.
    pose proof (lookup_forallb
      (fun e => negb (escaped (fst e))
                || match Util1.gsmDecode (Util1.gsmEncode [fst e]) with
                   | h :: _ => negb (Z.eqb h (fst e))
                   | [] => false
                   end)
      Util1.gsm0338Encode eq_refl c d E) as H.
    cbn [fst] in H. rewrite He in H. cbn [negb orb] in H.
    destruct (Util1.gsmDecode (Util1.gsmEncode [c])) as [|h t]; [discriminate|].
    exists h, t. split; [reflexivity|].
    apply negb_true_iff in H. now apply Z.eqb_neq.
  - unfold Util1.gsmEncode, Util1.gsmDecode. cbn [flat_map]. rewrite E.
    cbn [flat_map app].
    destruct (lookup c Util1.gsm0338Decode) as [d|]; [|discriminate].
    intros H. exists d, []. split; [reflexivity|]. now apply Z.eqb_neq.
Qed.

(** X18: in the first util.go, decoding the 7-bit encoding of a string
    gives the string back exactly when each of its characters is a plain one:
    a character of the encode table that is not behind the escape, or one
    that neither table has, or one that the decode table maps to itself.  One
    escaped character, or one pass-through character that is a code of the
    decode table, and the string does not come back. *)
Theorem gsm_round_trip (s : list rune) :
  Util1.Decode (Util1.gsmEncode s) = s <-> forallb plain s = true.
Proof.
  unfold Util1.Decode. induction s as [|c s IH]; [now split|].
  rewrite gsm_cons. cbn [forallb]. destruct (plain c) eqn:P.
  - rewrite (gsm_plain c P). cbn [app andb]. rewrite <- IH.
    split; [now intros [= H]|now intros ->].
  - destruct (gsm_not_plain c P) as (h & t & E & N). rewrite E.
    cbn [app andb]. split; [intros [= H _]; contradiction|discriminate].
Qed.

Lemma gsm0338_entries (c : rune) (d : list rune) :
  lookup c Util2.gsm0338 = Some d ->
  d = Util1.gsmEncode [c] /\ forallb septet d = true.
Proof.
  intros Hl.
  pose proof (lookup_forallb
    (fun e => runes_eqb (snd e) (Util1.gsmEncode [fst e])
              && forallb septet (snd e))
    Util2.gsm0338 eq_refl c d Hl) as H.
  cbn [fst snd] in H. apply andb_true_iff in H as [H1 H2].
  split; [now apply runes_eqb_eq|assumption].
Qed.

Lemma gsmEncode1_cons (c : rune) (s : list rune) :
  Util1.gsmEncode (c :: s) = (Util1.gsmEncode [c] ++ Util1.gsmEncode s)%list.
Proof. unfold Util1.gsmEncode. cbn [flat_map]. now rewrite app_nil_r. Qed.

(** X19: the two 7-bit encoders agree on the characters of the table of
    the second util.go, which is the table of the first with the plain ASCII
    characters added; the second drops every other character where the first
    lets it through, so that its output is always made of codes below 128. *)
Theorem gsmEncode_files (s : list rune) :
  Util2.gsmEncode s = Util1.gsmEncode (filter gsmCovered s)
  /\ forallb septet (Util2.gsmEncode s) = true
  /\ (forallb gsmCovered s = true -> Util2.gsmEncode s = Util1.gsmEncode s).
Proof.
  assert (A : Util2.gsmEncode s = Util1.gsmEncode (filter gsmCovered s)
              /\ forallb septet (Util2.gsmEncode s) = true).
  { induction s as [|c s [IH1 IH2]]; [now split|].
    unfold Util2.gsmEncode in *. cbn [flat_map filter]. unfold gsmCovered at 1.
    destruct (lookup c Util2.gsm0338) as [d|] eqn:E.
    - destruct (gsm0338_entries c d E) as [Ed Hd].
      rewrite gsmEncode1_cons, <- Ed, IH1. split; [reflexivity|].
      rewrite forallb_app, Hd. rewrite <- IH1. exact IH2.
    - cbn [app]. now split. }
  destruct A as [A1 A2]. split; [exact A1|]. split; [exact A2|].
  intros H. rewrite A1. f_equal.
  clear A1 A2. induction s as [|c s IH]; [reflexivity|].
  cbn [forallb] in H. apply andb_true_iff in H as [Hc Hs].
  cbn [filter]. rewrite Hc. now rewrite IH.
Qed.

Lemma unicodeEncode1_units (s : list rune) :
  Util1.unicodeEncode s = concat_all (map (hex4 false) (Util1.utf16_Encode s)).
Proof.
  unfold Util1.unicodeEncode, Util1.Sprintf_04x.
  set (J := strings.Join (map (hex4 false) (Util1.utf16_Encode s)) " ").
  change ("[" ++ J ++ "]") with (String "[" (J ++ "]")).
  cbn [String.length]. rewrite length_append. simpl (String.length "]").
  replace (S (String.length J + 1) - 2) with (String.length J) by lia.
  cbn [substring]. rewrite substring_prefix.
  apply removeSpaces_Join.
Qed.

Lemma utf16_Encode_cons (v : rune) (s : list rune) :
  Util1.utf16_Encode (v :: s)
  = (Util1.utf16_Encode [v] ++ Util1.utf16_Encode s)%list.
Proof. unfold Util1.utf16_Encode. cbn [flat_map]. now rewrite app_nil_r. Qed.

Lemma utf16_Encode_one (v : rune) :
  forallb unit16 (Util1.utf16_Encode [v]) = true
  /\ 1 <= List.length (Util1.utf16_Encode [v]) <= 2.
Proof.
  unfold Util1.utf16_Encode. cbn [flat_map].
  destruct ((0 <=? v) && (v <? 55296) || (57344 <=? v) && (v <? 65536))%Z eqn:B.
  - cbn [app forallb List.length]. split; [|lia]. unfold unit16.
    rewrite andb_true_r. apply andb_true_iff.
    apply orb_true_iff in B as [B|B]; apply andb_true_iff in B as [B1 B2];
      apply Z.leb_le in B1; apply Z.ltb_lt in B2;
      split; [apply Z.leb_le|apply Z.ltb_lt|apply Z.leb_le|apply Z.ltb_lt]; lia.
  - destruct ((65536 <=? v) && (v <=? 1114111))%Z eqn:C.
    + cbn [app forallb List.length]. split; [|lia]. unfold unit16.
      rewrite andb_true_r.
      pose proof (Z.mod_pos_bound ((v - 65536) / 1024) 1024 ltac:(lia)).
      pose proof (Z.mod_pos_bound (v - 65536) 1024 ltac:(lia)).
      apply andb_true_iff; split; apply andb_true_iff;
        split; [apply Z.leb_le|apply Z.ltb_lt|apply Z.leb_le|apply Z.ltb_lt]; lia.
    + cbn [app forallb List.length]. split; [reflexivity|lia].
Qed.

(** X20: unicodeEncode of the first util.go gives, for every string, the
    four lower-case hexadecimal digits of each UTF-16 code unit with nothing
    between them: a character of the basic plane gives one unit, one above
    it a surrogate pair, a surrogate or a value beyond U+10FFFF the
    replacement U+FFFD; so the output has between four and eight characters
    for every character of the input. *)
Theorem unicodeEncode_utf16 (s : list rune) :
  Util1.unicodeEncode s = concat_all (map (hex4 false) (Util1.utf16_Encode s))
  /\ forallb unit16 (Util1.utf16_Encode s) = true
  /\ String.length (Util1.unicodeEncode s)
     = 4 * List.length (Util1.utf16_Encode s)
  /\ List.length s <= List.length (Util1.utf16_Encode s) <= 2 * List.length s.
Proof.
  split; [apply unicodeEncode1_units|]. split; [|split].
  - induction s as [|v s IH]; [reflexivity|].
    rewrite utf16_Encode_cons, forallb_app, IH.
    now rewrite (proj1 (utf16_Encode_one v)).
  - rewrite unicodeEncode1_units, length_concat_all; [now rewrite length_map|].
    apply Forall_forall. intros d Hd. apply in_map_iff in Hd as (u & <- & _).
    reflexivity.
  - induction s as [|v s IH]; [cbn; lia|].
    rewrite utf16_Encode_cons, length_app. cbn [List.length].
    pose proof (proj2 (utf16_Encode_one v)). lia.
Qed.

(** ** Device times, well formed *)

Lemma zone_cut (t z : string) :
  String.length z = 3 ->
  (String.length (t ++ z) <? 3)%nat = false
  /\ substring 0 (String.length (t ++ z) - 3) (t ++ z) = t.
Proof.
  intros Hz. rewrite length_append, Hz. split.
  - apply Nat.ltb_ge. lia.
  - replace (String.length t + 3 - 3) with (String.length t) by lia.
    apply substring_prefix.
Qed.

Lemma two_digits (n : Z) :
  (0 <= n < 100)%Z ->
  exists a b, two n = String a (String b EmptyString)
              /\ time.isDigit a = true /\ time.isDigit b = true
              /\ (time.digit a * 10 + time.digit b)%Z = n.
Proof.
  intros Hn.
  assert (A : forallb (fun k =>
                match two (Z.of_nat k) with
                | String a (String b EmptyString) =>
                    time.isDigit a && time.isDigit b
                    && Z.eqb (time.digit a * 10 + time.digit b) (Z.of_nat k)
                | _ => false
                end) (seq 0 100) = true) by (vm_compute; reflexivity).
  rewrite forallb_forall in A. specialize (A (Z.to_nat n)).
  rewrite Z2Nat.id in A by lia.
  assert (I : In (Z.to_nat n) (seq 0 100)) by (apply in_seq; lia).
  specialize (A I).
  destruct (two n) as [|a [|b [|c r]]]; try discriminate.
  apply andb_true_iff in A as [A A3]. apply andb_true_iff in A as [A1 A2].
  exists a, b. repeat split; try assumption. now apply Z.eqb_eq.
Qed.

Lemma getnum_two (n : Z) (rest : string) (fixed : bool) :
  (0 <= n < 100)%Z -> time.getnum (two n ++ rest) fixed = Some (n, rest).
Proof.
  intros Hn. destruct (two_digits n Hn) as (a & b & -> & Ha & Hb & E).
  cbn [append time.getnum]. now rewrite Ha, Hb, E.
Qed.

Lemma getyear_two (n : Z) (rest : string) :
  (0 <= n < 100)%Z -> time.getyear (two n ++ rest) = Some (fullYear n, rest).
Proof.
  intros Hn. destruct (two_digits n Hn) as (a & b & -> & Ha & Hb & E).
  cbn [append time.getyear]. rewrite Ha, Hb, E. reflexivity.
Qed.

Lemma skip_same (c : ascii) (rest : string) :
  time.skip (String c rest) c = Some rest.
Proof. cbn [time.skip]. now rewrite Ascii.eqb_refl. Qed.

Lemma ParseTimeFormat_stamp (yy mo d h mi s : Z) :
  (0 <= yy < 100)%Z -> (1 <= mo <= 12)%Z ->
  (1 <= d <= time.daysIn mo (fullYear yy))%Z -> (d < 100)%Z ->
  (0 <= h < 24)%Z -> (0 <= mi < 60)%Z -> (0 <= s < 60)%Z ->
  time.ParseTimeFormat (stamp yy mo d h mi s)
  = Some (time.mkTime (fullYear yy) mo d h mi s 0).
Proof.
  intros Hy Hmo Hd Hd' Hh Hmi Hs. unfold stamp, time.ParseTimeFormat.
  rewrite getyear_two by lia. cbn [time.opt_bind append]. rewrite skip_same.
  cbn [time.opt_bind]. rewrite getnum_two by lia. cbn [time.opt_bind].
  replace ((mo <=? 0) || (12 <? mo))%Z with false
    by (symmetry; apply orb_false_iff; split;
        [apply Z.leb_gt|apply Z.ltb_ge]; lia).
  rewrite skip_same. cbn [time.opt_bind]. rewrite getnum_two by lia.
  cbn [time.opt_bind]. rewrite skip_same. cbn [time.opt_bind].
  rewrite getnum_two by lia. cbn [time.opt_bind].
  replace (24 <=? h)%Z with false by (symmetry; apply Z.leb_gt; lia).
  rewrite skip_same. cbn [time.opt_bind]. rewrite getnum_two by lia.
  cbn [time.opt_bind].
  replace (60 <=? mi)%Z with false by (symmetry; apply Z.leb_gt; lia).
  rewrite skip_same. cbn [time.opt_bind].
  rewrite <- (append_nil_r (two s)). rewrite getnum_two by lia.
  cbn [time.opt_bind].
  replace (60 <=? s)%Z with false by (symmetry; apply Z.leb_gt; lia).
  cbn [time.fraction].
  replace ((d <? 1) || (time.daysIn mo (fullYear yy) <? d))%Z with false
    by (symmetry; apply orb_false_iff; split; apply Z.ltb_ge; lia).
  reflexivity.
Qed.

(** X21: the last three characters of a device time, the zone, have no
    part in the result: whatever they are, parseTime gives what time.Parse
    makes of the text before them, and the zero time when that is
    malformed. *)
Theorem parseTime_zone (t z : string) :
  String.length z = 3 ->
  parseTime (t ++ z)
  = Done (match time.ParseTimeFormat t with
          | Some ret => ret
          | None => time.zero
          end).
Proof.
  intros Hz. unfold parseTime. destruct (zone_cut t z Hz) as [-> ->].
  now destruct (time.ParseTimeFormat t).
Qed.

Lemma parseTime_zone_witness :
  parseTime ("14/05/30,00:13:34" ++ "+32")
  = Done (match time.ParseTimeFormat "14/05/30,00:13:34" with
          | Some ret => ret
          | None => time.zero
          end).
Proof.
  exact (parseTime_zone "14/05/30,00:13:34" "+32" eq_refl).
Defined.

(** X22: a device time of two digits per field, with a month from 1 to
    12, a day that the month has in that year, an hour below 24 and minutes
    and seconds below 60, followed by any zone of three characters, is parsed
    to the time of these fields, taken as UTC, in the year 19yy from 69 on
    and 20yy below. *)
Theorem parseTime_stamp (z : string) (yy mo d h mi s : Z) :
  String.length z = 3 ->
  (0 <= yy < 100)%Z -> (1 <= mo <= 12)%Z ->
  (1 <= d <= time.daysIn mo (fullYear yy))%Z ->
  (0 <= h < 24)%Z -> (0 <= mi < 60)%Z -> (0 <= s < 60)%Z ->
  parseTime (stamp yy mo d h mi s ++ z)
  = Done (time.mkTime (fullYear yy) mo d h mi s 0).
Proof.
  intros Hz Hy Hmo Hd Hh Hmi Hs. unfold parseTime.
  destruct (zone_cut (stamp yy mo d h mi s) z Hz) as [-> ->].
  rewrite ParseTimeFormat_stamp; try assumption; [reflexivity|].
  assert (time.daysIn mo (fullYear yy) <= 31)%Z; [|lia].
  unfold time.daysIn.
  destruct (mo =? 2)%Z; [destruct (time.isLeap _); lia|].
  destruct ((mo =? 4) || (mo =? 6) || (mo =? 9) || (mo =? 11))%Z; lia.
Qed.

Lemma parseTime_stamp_witness :
  parseTime (stamp 14 2 28 23 59 7 ++ "+32")
  = Done (time.mkTime (fullYear 14) 2 28 23 59 7 0).
Proof.
  refine (parseTime_stamp "+32" 14 2 28 23 59 7 eq_refl _ _ _ _ _ _);
    cbn; lia.
Defined.

(** ** The +CMGR reply *)

Lemma parsePacket_CMGR_args (status rest body : string) :
  parsePacket status ("+CMGR:" ++ rest) body
  = let args := unquotes (strings.TrimSpace rest) in
    a1 <- at_index args 1 ;;
    if value_eqb a1 (VString EmptyString) then
      Done (Some (MessagePacket
        (mkMessage 0 EmptyString EmptyString time.zero body false)))
    else
      a0 <- at_index args 0 ;; st <- asString a0 ;;
      a1 <- at_index args 1 ;; tel <- asString a1 ;;
      a3 <- at_index args 3 ;; ts <- asString a3 ;;
      t <- parseTime ts ;;
      Done (Some (MessagePacket (mkMessage 0 st tel t body false))).
Proof. reflexivity. Qed.

(** An empty field: at a comma that does not abut the match before it the
    scanner finds the empty text. *)
Lemma FindAll_empty_field (k : string) :
  regexp.allMatches (S (String.length ("," ++ k))) ("," ++ k) false
  = EmptyString :: regexp.allMatches (S (String.length k)) k false.
Proof. reflexivity. Qed.

Lemma unquotes_CMGR_text (st tel ts : string) :
  strings.Contains st qq = false ->
  strings.Contains tel qq = false ->
  strings.Contains ts qq = false ->
  unquotes (quoted st ++ "," ++ quoted tel ++ "," ++ "," ++ quoted ts)
  = [VString st; VString tel; VString EmptyString; VString ts].
Proof.
  intros Hst Htel Hts. unfold unquotes, regexp.RegexQuote_FindAllString.
  rewrite (FindAll_quoted st _ false Hst), FindAll_comma.
  rewrite (FindAll_quoted tel _ false Htel), FindAll_comma.
  rewrite FindAll_empty_field.
  pose proof (FindAll_quoted ts EmptyString false Hts) as F.
  rewrite append_nil_r in F. rewrite F.
  cbn [map regexp.allMatches String.length].
  now rewrite !unquote_quoted.
Qed.

Lemma unquotes_CMGR_pdu (a n : Z) :
  exists v0 v2,
    unquotes (strconv.Itoa a ++ "," ++ "," ++ strconv.Itoa n)
    = [v0; VString EmptyString; v2].
Proof.
  unfold unquotes, regexp.RegexQuote_FindAllString.
  rewrite (proj1 (istoken_Itoa a)), FindAll_empty_field.
  rewrite (proj2 (istoken_Itoa n)).
  cbn [map]. eexists _, _. reflexivity.
Qed.

(** X23: the reply to a read.  In the text mode, with the state, the
    telephone and the device time in double quotes and an empty third field,
    the Message has the state, the telephone, the parsed time and the body;
    its index stays 0 and it is never marked as the last; when the time has
    fewer than three characters the parse panics, and when the telephone is
    empty only the body is kept.  In the PDU mode, where the second field is
    empty, the Message has the body alone. *)
Theorem parsePacket_CMGR (status body st tel ts : string) (a n : Z) :
  strings.Contains st qq = false ->
  strings.Contains tel qq = false ->
  strings.Contains ts qq = false ->
  parsePacket status
    ("+CMGR: " ++ quoted st ++ "," ++ quoted tel ++ ",," ++ quoted ts) body
  = (if String.eqb tel EmptyString
     then Done (Some (MessagePacket
            (mkMessage 0 EmptyString EmptyString time.zero body false)))
     else t <- parseTime ts ;;
          Done (Some (MessagePacket (mkMessage 0 st tel t body false))))
  /\ parsePacket status
       ("+CMGR: " ++ strconv.Itoa a ++ ",," ++ strconv.Itoa n) body
     = Done (Some (MessagePacket
         (mkMessage 0 EmptyString EmptyString time.zero body false))).
Proof.
  intros Hst Htel Hts. split.
  - change ("+CMGR: " ++ quoted st ++ "," ++ quoted tel ++ ",," ++ quoted ts)
      with ("+CMGR:" ++ String " "
              (quoted st ++ "," ++ quoted tel ++ "," ++ "," ++ quoted ts)).
    rewrite parsePacket_CMGR_args. cbv zeta. rewrite TrimSpace_space.
    assert (T : strings.TrimSpace
                  (quoted st ++ "," ++ quoted tel ++ "," ++ "," ++ quoted ts)
                = quoted st ++ "," ++ quoted tel ++ "," ++ "," ++ quoted ts).
    { assert (E : quoted st ++ "," ++ quoted tel ++ "," ++ "," ++ quoted ts
                  = String dquote
                      ((st ++ qq ++ "," ++ quoted tel ++ "," ++ "," ++ qq ++ ts)
                       ++ String dquote EmptyString)).
      { unfold quoted, qq.
        repeat (cbn [append]; rewrite ?append_assoc). reflexivity. }
      rewrite E. now apply TrimSpace_ends. }
    rewrite T, (unquotes_CMGR_text st tel ts Hst Htel Hts).
    cbn [at_index nth_error bind value_eqb asString].
    destruct (String.eqb tel EmptyString); reflexivity.
  - change ("+CMGR: " ++ strconv.Itoa a ++ ",," ++ strconv.Itoa n)
      with ("+CMGR:" ++ String " "
              (strconv.Itoa a ++ "," ++ "," ++ strconv.Itoa n)).
    rewrite parsePacket_CMGR_args. cbv zeta. rewrite TrimSpace_space.
    rewrite TrimSpace_graphic.
    + destruct (unquotes_CMGR_pdu a n) as (v0 & v2 & ->). reflexivity.
    + apply (allchars_impl isnumlistc); [apply isnumlistc_graphic|].
      assert (I : forall k, allchars isnumlistc (strconv.Itoa k) = true).
      { intros k. apply (allchars_impl isnumc); [|apply allchars_Itoa].
        intros c Hc. unfold isnumlistc. rewrite Hc. apply orb_true_r. }
      rewrite !allchars_append, !I. reflexivity.
Qed.

Lemma parsePacket_CMGR_witness :
  parsePacket "OK"
    ("+CMGR: " ++ quoted "REC READ" ++ "," ++ quoted "+989121234567" ++ ",,"
       ++ quoted "21/03/20,08:30:00+14") "salam"
  = Done (Some (MessagePacket
      (mkMessage 0 "REC READ" "+989121234567" (time.mkTime 2021 3 20 8 30 0 0)
                 "salam" false))).
Proof.
  exact (proj1 (parsePacket_CMGR "OK" "salam" "REC READ" "+989121234567"
                  "21/03/20,08:30:00+14" 1 24 eq_refl eq_refl eq_refl)).
Defined.

(** ** The status notifications *)

Lemma parsePacket_ZPASR_args (status rest body : string) :
  parsePacket status ("+ZPASR:" ++ rest) body
  = (let args := unquotes (strings.TrimSpace rest) in
     a0 <- at_index args 0 ;; s0 <- asString a0 ;;
     Done (Some (ServiceStatus s0))).
Proof. reflexivity. Qed.

Lemma parsePacket_ZDONR_args (status rest body : string) :
  parsePacket status ("+ZDONR:" ++ rest) body
  = (let args := unquotes (strings.TrimSpace rest) in
     a0 <- at_index args 0 ;; s0 <- asString a0 ;;
     Done (Some (NetworkStatus s0))).
Proof. reflexivity. Qed.

Lemma TrimSpace_quoted (s : string) :
  strings.TrimSpace (quoted s) = quoted s.
Proof.
  assert (E : quoted s = String dquote (s ++ String dquote EmptyString))
    by reflexivity.
  rewrite E. now apply TrimSpace_ends.
Qed.

Lemma unquotes_quoted (s : string) :
  strings.Contains s qq = false -> unquotes (quoted s) = [VString s].
Proof.
  intros H. unfold unquotes, regexp.RegexQuote_FindAllString.
  rewrite (proj2 (istoken_quoted s H)). cbn [map].
  now rewrite unquote_quoted.
Qed.

Lemma unquotes_Itoa (n : Z) :
  strconv.is_int n -> unquotes (strconv.Itoa n) = [VInt n].
Proof.
  intros H. unfold unquotes, regexp.RegexQuote_FindAllString.
  rewrite (proj2 (istoken_Itoa n)). cbn [map]. unfold unquote.
  now rewrite Itoa_not_quoted, (Atoi_Itoa n H).
Qed.

(** X24: the two status notifications +ZPASR and +ZDONR give a
    ServiceStatus and a NetworkStatus of their argument when it is in double
    quotes; when it is a number the argument has been unquoted to an int and
    the assertion that it is a string panics. *)
Theorem parsePacket_status_notifications (status body s : string) (n : Z) :
  strings.Contains s qq = false ->
  strconv.is_int n ->
  parsePacket status ("+ZPASR: " ++ quoted s) body = Done (Some (ServiceStatus s))
  /\ parsePacket status ("+ZDONR: " ++ quoted s) body
     = Done (Some (NetworkStatus s))
  /\ parsePacket status ("+ZPASR: " ++ strconv.Itoa n) body
     = Panic BadTypeAssertion
  /\ parsePacket status ("+ZDONR: " ++ strconv.Itoa n) body
     = Panic BadTypeAssertion.
Proof.
  intros Hs Hn.
  assert (T : strings.TrimSpace (strconv.Itoa n) = strconv.Itoa n).
  { apply TrimSpace_graphic. apply (allchars_impl isnumc); [|apply allchars_Itoa].
    intros c Hc. now apply isnumc_cases in Hc. }
  repeat split.
  - change ("+ZPASR: " ++ quoted s) with ("+ZPASR:" ++ String " " (quoted s)).
    rewrite parsePacket_ZPASR_args. cbv zeta.
    now rewrite TrimSpace_space, TrimSpace_quoted, (unquotes_quoted s Hs).
  - change ("+ZDONR: " ++ quoted s) with ("+ZDONR:" ++ String " " (quoted s)).
    rewrite parsePacket_ZDONR_args. cbv zeta.
    now rewrite TrimSpace_space, TrimSpace_quoted, (unquotes_quoted s Hs).
  - change ("+ZPASR: " ++ strconv.Itoa n)
      with ("+ZPASR:" ++ String " " (strconv.Itoa n)).
    rewrite parsePacket_ZPASR_args. cbv zeta.
    now rewrite TrimSpace_space, T, (unquotes_Itoa n Hn).
  - change ("+ZDONR: " ++ strconv.Itoa n)
      with ("+ZDONR:" ++ String " " (strconv.Itoa n)).
    rewrite parsePacket_ZDONR_args. cbv zeta.
    now rewrite TrimSpace_space, T, (unquotes_Itoa n Hn).
Qed.

Lemma parsePacket_status_notifications_witness :
  parsePacket EmptyString ("+ZPASR: " ++ quoted "No Service") EmptyString
  = Done (Some (ServiceStatus "No Service"))
  /\ parsePacket EmptyString ("+ZDONR: " ++ quoted "No Service") EmptyString
     = Done (Some (NetworkStatus "No Service"))
  /\ parsePacket EmptyString ("+ZPASR: " ++ strconv.Itoa 3) EmptyString
     = Panic BadTypeAssertion
  /\ parsePacket EmptyString ("+ZDONR: " ++ strconv.Itoa 3) EmptyString
     = Panic BadTypeAssertion.
Proof.
  refine (parsePacket_status_notifications EmptyString EmptyString
            "No Service" 3 eq_refl _).
  unfold strconv.is_int, strconv.minInt, strconv.maxInt. lia.
Defined.
